(** * render-flask-ping: the client of the row/attachment tracker

    A shallow embedding of [static/main.js] and the properties of its
    view projection, rendering and mutation/refresh protocol.

    - JavaScript strings are byte strings ([string], UTF-8 as in the source
      file); numbers that the client handles (ids, status codes, counts,
      timestamps) are integers.
    - A parsed JSON payload is a [JsValue]; the rows the renderer walks are
      the typed reading of such a payload ([Row], [File], [Snapshot]).
    - The DOM is a tree of [Node]s built by [el]; listeners are recorded as
      [Handler] commands whose bodies are the async functions of the source.
    - Async functions are programs of the [Prog] monad; an event loop
      ([Loop]) runs them up to their suspension points and logs requests,
      responses, alerts and unhandled rejections. *)

From Stdlib Require Import Ascii String ZArith Lia.
From stdpp Require Import gmap strings list fin_maps pretty sorting.

Open Scope string_scope.
Set Warnings "-register-all".
Set Default Proof Using "Type".

(** ** JavaScript strings *)

Module Js.

(** The white space and line terminators that [String.prototype.trim]
    strips, as the bytes of their UTF-8 encoding: TAB, LF, VT, FF, CR and
    SP; U+00A0; U+1680, U+2000 to U+200A, U+2028, U+2029, U+202F, U+205F,
    U+3000 and U+FEFF. *)
Definition is_space (c : ascii) : bool :=
  bool_decide (N_of_ascii c ∈ [9; 10; 11; 12; 13; 32]%N).

Definition is_space2 (c1 c2 : ascii) : bool :=
  ((N_of_ascii c1 =? 194) && (N_of_ascii c2 =? 160))%N.

Definition is_space3 (c1 c2 c3 : ascii) : bool :=
  let '(a, b, c) := (N_of_ascii c1, N_of_ascii c2, N_of_ascii c3) in
  ((a =? 225) && (b =? 154) && (c =? 128)
   || (a =? 226) && (b =? 128)
      && ((128 <=? c) && (c <=? 138) || (c =? 168) || (c =? 169) || (c =? 175))
   || (a =? 226) && (b =? 129) && (c =? 159)
   || (a =? 227) && (b =? 128) && (c =? 128)
   || (a =? 239) && (b =? 187) && (c =? 191))%N.

(** Strips the leading white space of [s]; with [fwd] unset the bytes of
    [s] are read as those of a reversed text. *)
Fixpoint strip (fwd : bool) (s : string) : string :=
  match s with
  | EmptyString => EmptyString
  | String c1 s1 =>
      if is_space c1 then strip fwd s1
      else
        match s1 with
        | EmptyString => s
        | String c2 s2 =>
            if (if fwd then is_space2 c1 c2 else is_space2 c2 c1) then strip fwd s2
            else
              match s2 with
              | EmptyString => s
              | String c3 s3 =>
                  if (if fwd then is_space3 c1 c2 c3 else is_space3 c3 c2 c1)
                  then strip fwd s3
                  else s
              end
        end
  end.

Definition trimStart (s : string) : string := strip true s.

Definition trimEnd (s : string) : string :=
  String.rev (strip false (String.rev s)).

Definition trim (s : string) : string := trimEnd (trimStart s).

(** [k.startsWith(p)] and [k.slice(n)]. *)
Definition startsWith (k p : string) : bool := String.prefix p k.

Definition slice (n : nat) (k : string) : string :=
  String.substring n (String.length k - n) k.

(** [encodeURIComponent]: the unreserved bytes are kept, every other byte
    of the UTF-8 text becomes [%XX]. *)
Definition unreserved (c : ascii) : bool :=
  let n := N_of_ascii c in
  ((65 <=? n) && (n <=? 90) || (97 <=? n) && (n <=? 122)
   || (48 <=? n) && (n <=? 57)
   || bool_decide (n ∈ [45; 95; 46; 33; 126; 42; 39; 40; 41]))%N.

Definition hex_digit (n : N) : ascii :=
  ascii_of_N (if (n <? 10)%N then 48 + n else 55 + n).

Fixpoint encodeURIComponent (s : string) : string :=
  match s with
  | EmptyString => EmptyString
  | String c s' =>
      if unreserved c then String c (encodeURIComponent s')
      else String "%"%char
             (String (hex_digit (N_of_ascii c / 16))
                (String (hex_digit (N_of_ascii c mod 16))
                   (encodeURIComponent s')))
  end.

End Js.

(** ** JavaScript values: what [JSON.parse] yields, and [undefined] *)

Inductive JsValue : Type :=
| VUndefined
| VNull
| VBool (b : bool)
| VNum (n : Z)
| VStr (s : string)
| VArr (items : list JsValue)
| VObj (props : list (string * JsValue)).

(** [o[k]] on the property list of an object. *)
Definition lookup_prop (k : string) (props : list (string * JsValue)) : JsValue :=
  match List.find (fun p => String.eqb (fst p) k) props with
  | Some p => snd p
  | None => VUndefined
  end.

(** [v?.k] for a key that is no built-in property of strings, numbers or
    arrays ([error], [mode], [rows], [groups]): only an object has it. *)
Definition opt_prop (v : JsValue) (k : string) : JsValue :=
  match v with
  | VObj props => lookup_prop k props
  | _ => VUndefined
  end.

(** ToBoolean. *)
Definition truthy (v : JsValue) : bool :=
  match v with
  | VUndefined | VNull => false
  | VBool b => b
  | VNum n => negb (n =? 0)%Z
  | VStr s => negb (String.eqb s "")
  | VArr _ | VObj _ => true
  end.

(** ToString, as [new Error(x)] applies it to its message argument. *)
Fixpoint js_toString (v : JsValue) : string :=
  match v with
  | VUndefined => "undefined"
  | VNull => "null"
  | VBool true => "true"
  | VBool false => "false"
  | VNum n => pretty n
  | VStr s => s
  | VArr items =>
      (fix join (l : list JsValue) : string :=
         match l with
         | [] => ""
         | x :: l' =>
             let item :=
               match x with
               | VUndefined | VNull => ""
               | _ => js_toString x
               end in
             match l' with
             | [] => item
             | _ => item +:+ "," +:+ join l'
             end
         end) items
  | VObj _ => "[object Object]"
  end.

(** ** The DOM: elements as [el] builds them *)

(** The closures that the source registers as listeners; their bodies are
    the programs of [handler] further down. *)
Inductive Handler : Type :=
| OpenPicker                                    (* () => input.click() *)
| UploadOnChange (rowId : Z) (kind : string)    (* async change listener *)
| DeleteFileOnClick (fileId : Z)                (* async onclick of a file *)
| DeleteRowOnClick (rowId : Z).                 (* () => deleteRow(r.id) *)

Inductive Node : Type :=
| TextNode (data : string)
| Element (tagName className : string)
          (attributes : list (string * string))
          (listeners : list (string * Handler))
          (childNodes : list Node).

(** A value of the [attrs] object of [el], and one of its rest arguments. *)
Inductive AttrValue : Type := AStr (s : string) | AFun (h : Handler).
Inductive Child : Type := CNull | CStr (s : string) | CNode (n : Node).

Definition createElement (tag : string) : Node := Element tag "" [] [] [].

Definition set_className (n : Node) (v : string) : Node :=
  match n with
  | Element t _ a l c => Element t v a l c
  | TextNode _ => n
  end.

Fixpoint put_attr (k v : string) (a : list (string * string)) : list (string * string) :=
  match a with
  | [] => [(k, v)]
  | (k', v') :: a' => if String.eqb k' k then (k, v) :: a' else (k', v') :: put_attr k v a'
  end.

Definition setAttribute (n : Node) (k v : string) : Node :=
  match n with
  | Element t cl a l c => Element t cl (put_attr k v a) l c
  | TextNode _ => n
  end.

Definition addEventListener (n : Node) (ev : string) (h : Handler) : Node :=
  match n with
  | Element t cl a l c => Element t cl a (l ++ [(ev, h)]) c
  | TextNode _ => n
  end.

Definition appendChild (n c : Node) : Node :=
  match n with
  | Element t cl a l cs => Element t cl a l (cs ++ [c])
  | TextNode _ => n
  end.

(** [el(tag, attrs, ...children)]: the key decides what an entry of
    [attrs] does. No call of the source passes a function under a plain
    key, a string under an [on...] key or an array as a child; here such
    an entry leaves the element as it is. *)
Definition el_attr (n : Node) (kv : string * AttrValue) : Node :=
  let '(k, v) := kv in
  if String.eqb k "class" then
    match v with AStr s => set_className n s | AFun _ => n end
  else if Js.startsWith k "on" then
    match v with AFun h => addEventListener n (Js.slice 2 k) h | AStr _ => n end
  else
    match v with AStr s => setAttribute n k s | AFun _ => n end.

Definition el_child (n : Node) (c : Child) : Node :=
  match c with
  | CNull => n
  | CStr s => appendChild n (TextNode s)
  | CNode c => appendChild n c
  end.

Definition el (tag : string) (attrs : list (string * AttrValue))
    (children : list Child) : Node :=
  let n := createElement tag in
  let n := foldl el_attr n attrs in
  foldl el_child n children.

(** ** Attachment kinds *)

Definition attachKinds : list (string * string) :=
  [ ("invoice", "인보이스");
    ("work", "작업확인서");
    ("inspect", "검수서");
    ("other", "기타 서류") ].

Definition kind_keys : list string := attachKinds.*1.

(** ** Rows and files, as the renderer reads them *)

Record File : Type := { f_id : Z; f_original_name : string }.

(** [r_note] and [r_files] may be missing or [null] in the payload, and so
    may a bucket of [r_files]; the source guards each of these reads. *)
Record Row : Type := {
  r_id : Z;
  r_title : string;
  r_category : string;
  r_note : option string;
  r_created_at : Z;
  r_files : option (gmap string (option (list File)))
}.

(** [Object.keys(o)] and [o[k] || []] on a bucket map. *)
Definition bucket_keys (files : gmap string (option (list File))) : list string :=
  (map_to_list files).*1.

Definition bucket_or_empty (files : gmap string (option (list File)))
    (k : string) : list File :=
  match files !! k with
  | Some (Some l) => l
  | _ => []
  end.

Definition countAllFiles (rows : list Row) : nat :=
  foldl (fun cnt r =>
           let files := default ∅ (r_files r) in
           foldl (fun cnt k => cnt + length (bucket_or_empty files k))
                 cnt (bucket_keys files))
        0 rows.

(** ** The page: the parts of the document that the client reads or writes *)

Record Page : Type := {
  title_value : string;        (* #title.value *)
  category_value : string;     (* #category.value *)
  note_value : string;         (* #note.value *)
  groupMode_value : string;    (* #groupMode.value *)
  totalBadge : string;         (* text of #totalBadge .num *)
  content : list Node          (* children of #content *)
}.

Definition set_title_value (v : string) (p : Page) : Page :=
  {| title_value := v; category_value := category_value p;
     note_value := note_value p; groupMode_value := groupMode_value p;
     totalBadge := totalBadge p; content := content p |}.

Definition set_note_value (v : string) (p : Page) : Page :=
  {| title_value := title_value p; category_value := category_value p;
     note_value := v; groupMode_value := groupMode_value p;
     totalBadge := totalBadge p; content := content p |}.

Definition set_content (c : list Node) (p : Page) : Page :=
  {| title_value := title_value p; category_value := category_value p;
     note_value := note_value p; groupMode_value := groupMode_value p;
     totalBadge := totalBadge p; content := c |}.

(** [content.innerHTML = ""] and [content.appendChild(n)]. *)
Definition clear_content (p : Page) : Page := set_content [] p.

Definition append_content (n : Node) (p : Page) : Page :=
  set_content (content p ++ [n]) p.

Definition setTotalBadge (n : nat) (p : Page) : Page :=
  {| title_value := title_value p; category_value := category_value p;
     note_value := note_value p; groupMode_value := groupMode_value p;
     totalBadge := pretty n; content := content p |}.

(** The payload of [GET /api/rows]: [data.mode === "time"] with
    [data.rows], or else [data.groups] (possibly missing), an object whose
    keys are enumerated in the order of the list. *)
Inductive Snapshot : Type :=
| TimeMode (rows : list Row)
| GroupMode (groups : option (list (string * list Row))).

Definition group_keys (groups : list (string * list Row)) : list string :=
  groups.*1.

Definition group_values (groups : list (string * list Row)) : list (list Row) :=
  groups.*2.

(** [groups[k]], for a key [k] of [groups]. *)
Definition group_rows (groups : list (string * list Row)) (k : string) : list Row :=
  match List.find (fun g => String.eqb (fst g) k) groups with
  | Some g => snd g
  | None => []
  end.

(** ** Rendering *)

Section Client.

(** The two built-ins whose result the text of the program does not fix:
    the localized rendering of an instant ([new Date(t).toLocaleString()])
    and [JSON.parse], [None] when it throws. *)
Variable toLocaleString : Z → string.
Variable JSON_parse : string → option JsValue.

Definition makeInstantUploadButton (rowId : Z) (kind : string) : Node :=
  let input := el "input" [("type", AStr "file"); ("style", AStr "display:none")] [] in
  let btn := el "button" [("class", AStr "btn-ghost mini")] [CStr "업로드"] in
  let btn := addEventListener btn "click" OpenPicker in
  let input := addEventListener input "change" (UploadOnChange rowId kind) in
  el "div" [("class", AStr "uploader")] [CNode btn; CNode input].

Definition file_entry (f : File) : Node :=
  let link :=
    el "a" [("class", AStr "fileLink");
            ("href", AStr ("/api/download/" +:+ pretty (f_id f)));
            ("target", AStr "_blank")]
       [CStr (f_original_name f)] in
  let del :=
    el "button" [("class", AStr "btn-danger mini");
                 ("onclick", AFun (DeleteFileOnClick (f_id f)))]
       [CStr "삭제"] in
  el "div" [("class", AStr "fileRow")] [CNode link; CNode del].

Definition renderFilesCell (row : Row) (kind : string) : Node :=
  let wrap := el "div" [("class", AStr "files")] [] in
  let wrap := appendChild wrap (makeInstantUploadButton (r_id row) kind) in
  let list :=
    match r_files row with
    | Some files =>
        match files !! kind with
        | Some (Some l) => l
        | _ => []
        end
    | None => []
    end in
  foldl (fun wrap f => appendChild wrap (file_entry f)) wrap list.

Definition note_cell (r : Row) : Node :=
  match r_note r with
  | Some n =>
      if String.eqb n "" then el "div" [("class", AStr "meta")] [CStr " "]
      else el "div" [("class", AStr "meta")] [CStr n]
  | None => el "div" [("class", AStr "meta")] [CStr " "]
  end.

(** The body of the loop of [renderTable]: the [tr] of one row. *)
Definition table_row (r : Row) : Node :=
  let tr := el "tr" [] [] in
  let dt := r_created_at r in
  let tr := appendChild tr
    (el "td" [] [CNode (el "div" [("class", AStr "meta")] [CStr (toLocaleString dt)])]) in
  let tr := appendChild tr
    (el "td" [] [CNode (el "div" [] [CStr (r_title r)]); CNode (note_cell r)]) in
  let tr := appendChild tr
    (el "td" [] [CNode (el "span" [("class", AStr "badge")] [CStr (r_category r)])]) in
  let tr := appendChild tr (el "td" [] [CNode (renderFilesCell r "invoice")]) in
  let tr := appendChild tr (el "td" [] [CNode (renderFilesCell r "work")]) in
  let tr := appendChild tr (el "td" [] [CNode (renderFilesCell r "inspect")]) in
  let tr := appendChild tr (el "td" [] [CNode (renderFilesCell r "other")]) in
  appendChild tr
    (el "td" [] [CNode (el "button" [("class", AStr "btn-danger mini");
                                     ("onclick", AFun (DeleteRowOnClick (r_id r)))]
                           [CStr "행 삭제"])]).

Definition renderTable (rows : list Row) : Node :=
  let table := el "table" [("class", AStr "grid")] [] in
  let thead := el "thead" [] [] in
  let trh := el "tr" [] [] in
  let trh := appendChild trh (el "th" [] [CStr "생성일"]) in
  let trh := appendChild trh (el "th" [] [CStr "제목 / 비고"]) in
  let trh := appendChild trh (el "th" [] [CStr "종류"]) in
  let trh := appendChild trh (el "th" [] [CStr "인보이스"]) in
  let trh := appendChild trh (el "th" [] [CStr "작업확인서"]) in
  let trh := appendChild trh (el "th" [] [CStr "검수서"]) in
  let trh := appendChild trh (el "th" [] [CStr "기타 서류"]) in
  let trh := appendChild trh (el "th" [] [CStr "관리"]) in
  let thead := appendChild thead trh in
  let table := appendChild table thead in
  let tbody := el "tbody" [] [] in
  let tbody := foldl (fun tbody r => appendChild tbody (table_row r)) tbody rows in
  appendChild table tbody.

(** The part of [refresh] that follows the fetch: the target is emptied
    ([clear_content]), then the badge is set and the tables are appended
    ([draw]). *)
Definition draw (data : Snapshot) (p : Page) : Page :=
  match data with
  | TimeMode rows =>
      let p := setTotalBadge (countAllFiles rows) p in
      append_content (renderTable rows) p
  | GroupMode g =>
      let groups := default [] g in
      let all := foldl (fun all arr => (all ++ arr)%list) [] (group_values groups) in
      let p := setTotalBadge (countAllFiles all) p in
      let keys := group_keys groups in
      if (length keys =? 0)%nat then
        append_content (el "div" [("class", AStr "meta")] [CStr "데이터가 없습니다."]) p
      else
        foldl (fun p k =>
                 let p := append_content
                            (el "div" [("class", AStr "groupHead")] [CStr ("📁 " +:+ k)]) p in
                 append_content (renderTable (group_rows groups k)) p)
              p keys
  end.

Definition redraw (data : Snapshot) (p : Page) : Page :=
  draw data (clear_content p).

(** What a reader of the surface can count: the elements of a class in a
    tree, and over the children of the render target. *)
Fixpoint count_class (c : string) (n : Node) : nat :=
  match n with
  | TextNode _ => 0
  | Element _ cl _ _ cs =>
      (if String.eqb cl c then 1 else 0) + sum_list_with (count_class c) cs
  end.

Definition rendered_files (p : Page) : nat :=
  sum_list_with (count_class "fileRow") (content p).

(** ** Reading a parsed payload as a snapshot

    The typed reading of the JSON that [GET /api/rows] answers with: ids
    and timestamps are numbers, titles, categories and names are strings,
    a note, the bucket map and a bucket may be [null] or missing. A payload
    that has no such reading is outside the model of the renderer. *)

Definition as_list {A : Type} (f : JsValue → option A) (v : JsValue) : option (list A) :=
  match v with
  | VArr items => mapM f items
  | _ => None
  end.

Definition as_file (v : JsValue) : option File :=
  match v with
  | VObj props =>
      match lookup_prop "id" props, lookup_prop "original_name" props with
      | VNum n, VStr s => Some {| f_id := n; f_original_name := s |}
      | _, _ => None
      end
  | _ => None
  end.

Definition as_bucket (v : JsValue) : option (option (list File)) :=
  match v with
  | VUndefined | VNull => Some None
  | _ => Some <$> as_list as_file v
  end.

Definition as_files (v : JsValue) : option (option (gmap string (option (list File)))) :=
  match v with
  | VUndefined | VNull => Some None
  | VObj props =>
      (λ l, Some (list_to_map l)) <$>
        mapM (λ kb : string * JsValue, pair (fst kb) <$> as_bucket (snd kb)) props
  | _ => None
  end.

Definition as_note (v : JsValue) : option (option string) :=
  match v with
  | VUndefined | VNull => Some None
  | VStr s => Some (Some s)
  | _ => None
  end.

Definition as_row (v : JsValue) : option Row :=
  match v with
  | VObj props =>
      match lookup_prop "id" props, lookup_prop "title" props,
            lookup_prop "category" props, lookup_prop "created_at" props,
            as_note (lookup_prop "note" props), as_files (lookup_prop "files" props) with
      | VNum i, VStr t, VStr c, VNum d, Some n, Some fs =>
          Some {| r_id := i; r_title := t; r_category := c; r_note := n;
                  r_created_at := d; r_files := fs |}
      | _, _, _, _, _, _ => None
      end
  | _ => None
  end.

Definition as_groups (v : JsValue) : option (option (list (string * list Row))) :=
  if truthy v then
    match v with
    | VObj props =>
        Some <$> mapM (λ kr : string * JsValue,
                         pair (fst kr) <$> as_list as_row (snd kr)) props
    | _ => None
    end
  else Some None.

Definition is_time_mode (data : JsValue) : bool :=
  match opt_prop data "mode" with
  | VStr m => String.eqb m "time"
  | _ => false
  end.

Definition as_snapshot (data : JsValue) : option Snapshot :=
  if is_time_mode data then TimeMode <$> as_list as_row (opt_prop data "rows")
  else GroupMode <$> as_groups (opt_prop data "groups").

(** ** Requests and responses *)

Record Blob : Type := { blob_name : string; blob_data : string }.

Inductive FormValue : Type := FStr (s : string) | FFile (b : Blob).

(** The body of a request: none, the value handed to [JSON.stringify], or
    the entries of a [FormData]. *)
Inductive Body : Type :=
| NoBody
| JsonBody (v : JsValue)
| FormBody (fields : list (string * FormValue)).

Record FetchOpts : Type := {
  method : string;
  headers : list (string * string);
  body : Body
}.

(** [opts = {}]: a plain GET. *)
Definition no_opts : FetchOpts := {| method := "GET"; headers := []; body := NoBody |}.

(** What the two awaits of [api] end in: [fetch] rejects (a transport
    failure), or the response arrives with its status and body text. *)
Inductive FetchResult : Type :=
| NetworkError (msg : string)
| Response (status : Z) (text : string).

(** [res.ok]. *)
Definition ok (status : Z) : bool := (200 <=? status)%Z && (status <=? 299)%Z.

(** ** The state that listeners share *)

(** The button and the hidden file input that one call of
    [makeInstantUploadButton] creates and that its change listener keeps
    in its closure, with the properties the listener writes, and whether
    the file picker of the input is open. *)
Record UploadControl : Type := {
  btn_disabled : bool;
  btn_textContent : string;
  input_files : list Blob;
  picker_open : bool
}.

Record World : Type := { page : Page; control : UploadControl }.

Definition on_page (f : Page → Page) (w : World) : World :=
  {| page := f (page w); control := control w |}.

Definition on_control (f : UploadControl → UploadControl) (w : World) : World :=
  {| page := page w; control := f (control w) |}.

Definition set_btn_disabled (b : bool) (c : UploadControl) : UploadControl :=
  {| btn_disabled := b; btn_textContent := btn_textContent c;
     input_files := input_files c; picker_open := picker_open c |}.

Definition set_btn_textContent (s : string) (c : UploadControl) : UploadControl :=
  {| btn_disabled := btn_disabled c; btn_textContent := s;
     input_files := input_files c; picker_open := picker_open c |}.

Definition set_input_files (l : list Blob) (c : UploadControl) : UploadControl :=
  {| btn_disabled := btn_disabled c; btn_textContent := btn_textContent c;
     input_files := l; picker_open := picker_open c |}.

Definition set_picker_open (b : bool) (c : UploadControl) : UploadControl :=
  {| btn_disabled := btn_disabled c; btn_textContent := btn_textContent c;
     input_files := input_files c; picker_open := b |}.

(** ** Async functions as programs *)

(** A program returns a value, throws an error (kept as its message),
    or performs an effect and goes on. [Fetch] is the only suspension
    point; [Spawn p k] calls the async function [p] without awaiting it. *)
Inductive Prog : Type :=
| Ret (v : JsValue)
| Throw (msg : string)
| Fetch (url : string) (opts : FetchOpts) (k : FetchResult → Prog)
| Alert (msg : string) (k : Prog)
| Confirm (msg : string) (k : bool → Prog)
| Get (k : World → Prog)
| Put (f : World → World) (k : Prog)
| Spawn (p : Prog) (k : Prog).

Fixpoint bind (p : Prog) (f : JsValue → Prog) : Prog :=
  match p with
  | Ret v => f v
  | Throw e => Throw e
  | Fetch u o k => Fetch u o (λ r, bind (k r) f)
  | Alert m k => Alert m (bind k f)
  | Confirm m k => Confirm m (λ b, bind (k b) f)
  | Get k => Get (λ w, bind (k w) f)
  | Put g k => Put g (bind k f)
  | Spawn q k => Spawn q (bind k f)
  end.

(** [try { p } catch (e) { h e.message }]; a rejection of a program that
    [p] only spawned is not caught. *)
Fixpoint try_catch (p : Prog) (h : string → Prog) : Prog :=
  match p with
  | Ret v => Ret v
  | Throw e => h e
  | Fetch u o k => Fetch u o (λ r, try_catch (k r) h)
  | Alert m k => Alert m (try_catch k h)
  | Confirm m k => Confirm m (λ b, try_catch (k b) h)
  | Get k => Get (λ w, try_catch (k w) h)
  | Put g k => Put g (try_catch k h)
  | Spawn q k => Spawn q (try_catch k h)
  end.

(** [try { p } finally { fin }]. *)
Fixpoint finally (p : Prog) (fin : Prog) : Prog :=
  match p with
  | Ret v => bind fin (λ _, Ret v)
  | Throw e => bind fin (λ _, Throw e)
  | Fetch u o k => Fetch u o (λ r, finally (k r) fin)
  | Alert m k => Alert m (finally k fin)
  | Confirm m k => Confirm m (λ b, finally (k b) fin)
  | Get k => Get (λ w, finally (k w) fin)
  | Put g k => Put g (finally k fin)
  | Spawn q k => Spawn q (finally k fin)
  end.

Notation "'await' x ':=' p 'in' q" := (bind p (λ x, q))
  (at level 10, x name, p at level 200, q at level 200, only parsing).

(** ** The functions of [main.js] *)

Definition http_error (data : JsValue) (status : Z) : string :=
  let e := opt_prop data "error" in
  if truthy e then js_toString e else "HTTP " +:+ pretty status.

(** [api(url, opts)]. The awaits of [fetch] and of [res.text()] are one
    suspension: nothing else of the calling task runs between them. *)
Definition api (url : string) (opts : FetchOpts) : Prog :=
  Fetch url opts (λ res,
    match res with
    | NetworkError e => Throw e
    | Response status txt =>
        let data :=
          match JSON_parse txt with
          | Some v => v
          | None => VStr txt
          end in
        if negb (ok status) then Throw (http_error data status)
        else Ret data
    end).

(** The message of the TypeError that a property read on [null] throws. *)
Definition type_error : string := "TypeError".

Definition refresh : Prog :=
  Get (λ w,
    let mode := groupMode_value (page w) in
    await data := api ("/api/rows?group=" +:+ Js.encodeURIComponent mode) no_opts in
    Put (on_page clear_content)
      match data with
      | VUndefined | VNull => Throw type_error
      | _ =>
          match as_snapshot data with
          | Some snap => Put (on_page (draw snap)) (Ret VUndefined)
          | None => Throw type_error
          end
      end).

Definition createRow : Prog :=
  Get (λ w,
    let title := Js.trim (title_value (page w)) in
    let category := Js.trim (category_value (page w)) in
    let note := Js.trim (note_value (page w)) in
    if String.eqb title "" then
      Alert "제목(필수)을 입력해주세요." (Ret VUndefined)
    else
      await _ := api "/api/rows"
                   {| method := "POST";
                      headers := [("Content-Type", "application/json")];
                      body := JsonBody (VObj [("title", VStr title);
                                              ("category", VStr category);
                                              ("note", VStr note)]) |} in
      Put (on_page (set_title_value ""))
        (Put (on_page (set_note_value ""))
           (Spawn refresh (Ret VUndefined)))).

Definition delete_opts : FetchOpts :=
  {| method := "DELETE"; headers := []; body := NoBody |}.

Definition deleteRow (id : Z) : Prog :=
  Confirm "이 행을 삭제할까요? (첨부도 함께 삭제됨)" (λ yes,
    if negb yes then Ret VUndefined
    else
      await _ := api ("/api/rows/" +:+ pretty id) delete_opts in
      Spawn refresh (Ret VUndefined)).

(** The change listener of the file input of [makeInstantUploadButton]. *)
Definition uploadFile (rowId : Z) (kind : string) : Prog :=
  Get (λ w,
    match input_files (control w) with
    | [] => Ret VUndefined
    | file :: _ =>
        let fd := [("row_id", FStr (pretty rowId)); ("kind", FStr kind);
                   ("file", FFile file)] in
        Put (on_control (set_btn_disabled true))
          (Put (on_control (set_btn_textContent "업로드중…"))
             (finally
                (try_catch
                   (await _ := api "/api/upload"
                                 {| method := "POST"; headers := [];
                                    body := FormBody fd |} in
                    await _ := refresh in
                    Ret VUndefined)
                   (λ e, Alert e (Ret VUndefined)))
                (Put (on_control (set_btn_disabled false))
                   (Put (on_control (set_btn_textContent "업로드"))
                      (Put (on_control (set_input_files []))
                         (Ret VUndefined))))))
    end).

(** The click listener of the delete button of a file entry. *)
Definition deleteFile (fileId : Z) : Prog :=
  Confirm "이 파일을 삭제할까요?" (λ yes,
    if negb yes then Ret VUndefined
    else
      try_catch
        (await _ := api ("/api/files/" +:+ pretty fileId) delete_opts in
         Spawn refresh (Ret VUndefined))
        (λ e, Alert e (Ret VUndefined))).

(** The body of each listener; [input.click()] opens the file picker. *)
Definition handler (h : Handler) : Prog :=
  match h with
  | OpenPicker => Put (on_control (set_picker_open true)) (Ret VUndefined)
  | UploadOnChange rowId kind => uploadFile rowId kind
  | DeleteFileOnClick fileId => deleteFile fileId
  | DeleteRowOnClick rowId => deleteRow rowId
  end.

(** ** The event loop *)

Inductive Event : Type :=
| EvRequest (url : string) (opts : FetchOpts)
| EvResponse (url : string) (r : FetchResult)
| EvAlert (msg : string)
| EvConfirm (msg : string) (answer : bool)
| EvUnhandled (msg : string).

(** A task suspended on a request. *)
Record Task : Type := {
  t_url : string;
  t_opts : FetchOpts;
  t_cont : FetchResult → Prog
}.

Inductive Status : Type :=
| Done (v : JsValue)
| Failed (msg : string)
| Waiting (t : Task).

Record Exec : Type := {
  x_world : World;
  x_log : list Event;
  x_spawned : list Task;
  x_status : Status
}.

(** The user's answers to [confirm], by the text of the question. *)
Variable answer : string → bool.

(** Runs a program up to its first suspension. A spawned program runs up
    to its own first suspension and is left behind as a task of its own;
    its rejection is nobody's to catch. *)
Fixpoint exec (p : Prog) (w : World) : Exec :=
  match p with
  | Ret v => {| x_world := w; x_log := []; x_spawned := []; x_status := Done v |}
  | Throw e => {| x_world := w; x_log := []; x_spawned := []; x_status := Failed e |}
  | Fetch u o k =>
      {| x_world := w; x_log := [EvRequest u o]; x_spawned := [];
         x_status := Waiting {| t_url := u; t_opts := o; t_cont := k |} |}
  | Alert m k =>
      let x := exec k w in
      {| x_world := x_world x; x_log := EvAlert m :: x_log x;
         x_spawned := x_spawned x; x_status := x_status x |}
  | Confirm m k =>
      let x := exec (k (answer m)) w in
      {| x_world := x_world x; x_log := EvConfirm m (answer m) :: x_log x;
         x_spawned := x_spawned x; x_status := x_status x |}
  | Get k => exec (k w) w
  | Put f k => exec k (f w)
  | Spawn q k =>
      let x1 := exec q w in
      let x2 := exec k (x_world x1) in
      {| x_world := x_world x2;
         x_log := x_log x1 ++
                  match x_status x1 with Failed e => [EvUnhandled e] | _ => [] end ++
                  x_log x2;
         x_spawned := x_spawned x1 ++
                      match x_status x1 with Waiting t => [t] | _ => [] end ++
                      x_spawned x2;
         x_status := x_status x2 |}
  end.

Record Loop : Type := {
  world : World;
  pending : list Task;     (* the outstanding requests, oldest first *)
  log : list Event
}.

(** Starts a program as a task of the loop: a listener that an event
    dispatches, or the continuation of a task whose response arrived. *)
Definition run (p : Prog) (m : Loop) : Loop :=
  let x := exec p (world m) in
  {| world := x_world x;
     pending := pending m ++ x_spawned x ++
                match x_status x with Waiting t => [t] | _ => [] end;
     log := log m ++ x_log x ++
            match x_status x with Failed e => [EvUnhandled e] | _ => [] end |}.

(** The response to the [i]-th outstanding request arrives. *)
Definition deliver (i : nat) (r : FetchResult) (m : Loop) : Loop :=
  match pending m !! i with
  | None => m
  | Some t =>
      run (t_cont t r)
        {| world := world m; pending := delete i (pending m);
           log := log m ++ [EvResponse (t_url t) r] |}
  end.

(** One user action: its listener starts, and the responses arrive in
    the order of their requests. *)
Definition act (p : Prog) (rs : list FetchResult) (m : Loop) : Loop :=
  foldl (λ m r, deliver 0 r m) (run p m) rs.

Definition idle (w : World) : Loop := {| world := w; pending := []; log := [] |}.

(** ** What the properties speak of *)

(** The files that the cell of a kind shows for a row:
    [(row.files && row.files[kind]) ? row.files[kind] : []]. *)
Definition cell_files (row : Row) (kind : string) : list File :=
  match r_files row with
  | Some files => bucket_or_empty files kind
  | None => []
  end.

(** The [thead] that [renderTable] builds before its loop. *)
Definition table_head : Node :=
  Element "thead" "" [] []
    [Element "tr" "" [] []
       ((λ label, Element "th" "" [] [] [TextNode label]) <$>
          ["생성일"; "제목 / 비고"; "종류"; "인보이스"; "작업확인서";
           "검수서"; "기타 서류"; "관리"])].

(** The sum, over all rows and all the kinds of their bucket maps, of the
    bucket lengths. *)
Definition bucket_total (files : gmap string (option (list File))) : nat :=
  sum_list_with (λ kb : string * option (list File), length (default [] (snd kb)))
                (map_to_list files).

Definition attachment_total (rows : list Row) : nat :=
  sum_list_with (λ r, bucket_total (default ∅ (r_files r))) rows.

(** The rows of a snapshot, group after group in category mode. *)
Definition snapshot_rows (data : Snapshot) : list Row :=
  match data with
  | TimeMode rows => rows
  | GroupMode g => concat (group_values (default [] g))
  end.

(** Well-formed snapshots: every bucket of every row is filed under a kind
    of the registry, and the keys of the group object are distinct (as the
    keys of an object are). *)
Definition row_wf (r : Row) : Prop :=
  Forall (λ k, k ∈ kind_keys) (bucket_keys (default ∅ (r_files r))).

Definition snapshot_wf (data : Snapshot) : Prop :=
  Forall row_wf (snapshot_rows data) ∧
  match data with
  | TimeMode _ => True
  | GroupMode g => NoDup (group_keys (default [] g))
  end.

(** The children of the render target after a redraw. *)
Definition group_head (k : string) : Node :=
  el "div" [("class", AStr "groupHead")] [CStr ("📁 " +:+ k)].

Definition empty_notice : Node :=
  el "div" [("class", AStr "meta")] [CStr "데이터가 없습니다."].

Definition view (data : Snapshot) : list Node :=
  match data with
  | TimeMode rows => [renderTable rows]
  | GroupMode g =>
      let groups := default [] g in
      if (length (group_keys groups) =? 0)%nat then [empty_notice]
      else group_keys groups ≫= λ k, [group_head k; renderTable (group_rows groups k)]
  end.

(** The rows of a surface in document order, each by the id that its
    delete control carries. *)
Fixpoint delete_row_ids (n : Node) : list Z :=
  match n with
  | TextNode _ => []
  | Element _ _ _ ls cs =>
      ((ls ≫= λ l, match snd l with DeleteRowOnClick id => [id] | _ => [] end)
       ++ (cs ≫= delete_row_ids))%list
  end.

Definition rendered_rows (p : Page) : list Z := content p ≫= delete_row_ids.

(** Modelled from the words of the specification, for comparison with
    [redraw]: the time-mode projection of section 4.2, a stable sort by
    [created_at], most recent first. The client has no such function. *)
Fixpoint insert_by_time (r : Row) (l : list Row) : list Row :=
  match l with
  | [] => [r]
  | x :: l' =>
      if (r_created_at x <=? r_created_at r)%Z then r :: l
      else x :: insert_by_time r l'
  end.

Definition time_order (rows : list Row) : list Row := foldr insert_by_time [] rows.

(** Modelled from the words of the specification, for comparison with
    [http_error]: the message of section 6, the [error] field of a body of
    the shape [{ error: string }] and ["HTTP {status}"] otherwise. *)
Definition spec_error_message (data : JsValue) (status : Z) : string :=
  match data with
  | VObj props =>
      match lookup_prop "error" props with
      | VStr s => s
      | _ => "HTTP " +:+ pretty status
      end
  | _ => "HTTP " +:+ pretty status
  end.

(** [data] in [api]: the parsed body, or the text when it does not parse. *)
Definition body_data (txt : string) : JsValue :=
  match JSON_parse txt with
  | Some v => v
  | None => VStr txt
  end.

(** A program started in [w] whose first request is answered by [r]. *)
Definition answered (p : Prog) (r : FetchResult) (w : World) : Exec :=
  let x := exec p w in
  match x_status x with
  | Waiting t => exec (t_cont t r) (x_world x)
  | _ => x
  end.

(** The error that [api] throws on a result, if it throws. *)
Definition failure (r : FetchResult) : option string :=
  match r with
  | NetworkError e => Some e
  | Response status txt =>
      if ok status then None else Some (http_error (body_data txt) status)
  end.

(** ** Reading the log *)

Definition refresh_url (w : World) : string :=
  "/api/rows?group=" +:+ Js.encodeURIComponent (groupMode_value (page w)).

Definition is_refresh_url (u : string) : bool := String.prefix "/api/rows?group=" u.

Definition is_alert (e : Event) : bool :=
  match e with EvAlert _ => true | _ => false end.

Definition is_request (e : Event) : bool :=
  match e with EvRequest _ _ => true | _ => false end.

Definition is_upload_request (e : Event) : bool :=
  match e with EvRequest u _ => String.eqb u "/api/upload" | _ => false end.

(** The mutation requests that a log leaves unanswered, and whether it
    holds the response to one. *)
Definition mutations_in_flight_from (n : nat) (l : list Event) : nat :=
  foldl (λ n e,
           match e with
           | EvRequest u _ => if is_refresh_url u then n else S n
           | EvResponse u _ => if is_refresh_url u then n else pred n
           | _ => n
           end) n l.

Definition mutation_settled (l : list Event) : bool :=
  existsb (λ e, match e with
                | EvResponse u _ => negb (is_refresh_url u)
                | _ => false
                end) l.

(** Whenever a request of [refresh] is issued, the response to a mutation
    request has arrived and no mutation request is outstanding. *)
Definition refresh_after_mutation (l : list Event) : Prop :=
  ∀ pre u o post,
    l = (pre ++ EvRequest u o :: post)%list → is_refresh_url u = true →
    mutation_settled pre = true ∧ mutations_in_flight_from 0 pre = 0.

(** The same as a scan of the log: [in_flight] counts the mutation
    requests not answered yet, [settled] tells whether one was answered. *)
Fixpoint no_race_from (in_flight : nat) (settled : bool) (l : list Event) : bool :=
  match l with
  | [] => true
  | EvRequest u _ :: l' =>
      if is_refresh_url u
      then (in_flight =? 0)%nat && settled && no_race_from in_flight settled l'
      else no_race_from (S in_flight) settled l'
  | EvResponse u _ :: l' =>
      if is_refresh_url u then no_race_from in_flight settled l'
      else no_race_from (pred in_flight) true l'
  | _ :: l' => no_race_from in_flight settled l'
  end.

Definition no_race (l : list Event) : bool := no_race_from 0 false l.

(** ** The user at an upload control *)

(** A click on the button, which a disabled button does not dispatch, and
    a selection in the file picker, which sets [input.files] and fires
    [change]; there is no selection without an open picker. *)
Inductive Gesture : Type :=
| ClickButton
| ChooseFiles (files : list Blob).

Definition gesture (rowId : Z) (kind : string) (m : Loop) (g : Gesture) : Loop :=
  match g with
  | ClickButton =>
      if btn_disabled (control (world m)) then m
      else run (handler OpenPicker) m
  | ChooseFiles files =>
      if picker_open (control (world m)) then
        run (handler (UploadOnChange rowId kind))
          {| world := on_control (set_input_files files)
                        (on_control (set_picker_open false) (world m));
             pending := pending m; log := log m |}
      else m
  end.

(** The upload requests of a log. *)
Definition upload_requests (l : list Event) : nat :=
  sum_list_with (λ e, if is_upload_request e then 1 else 0) l.

(** The state of an upload control that is not busy. *)
Definition control_at_rest (picker : bool) : UploadControl :=
  {| btn_disabled := false; btn_textContent := "업로드";
     input_files := []; picker_open := picker |}.

(** A world whose file input holds a selection. *)
Definition with_files (files : list Blob) (w : World) : World :=
  on_control (set_input_files files) w.

(** What holds of the loop as long as the user only clicks and selects:
    no upload was requested yet, or one was and the button is disabled
    with the picker closed. *)
Definition quiet_or_busy (m : Loop) : Prop :=
  upload_requests (log m) = 0 ∨
  (upload_requests (log m) = 1 ∧
   btn_disabled (control (world m)) = true ∧
   picker_open (control (world m)) = false).

(** ** Sample data *)

(** The bodies [{"error":""}] and [{"error":"title required"}], and what
    [JSON.parse] makes of them; [sample_parse] throws on any other text. *)
Definition dq : string := String (ascii_of_nat 34) "".

Definition empty_error_body : string :=
  "{" +:+ dq +:+ "error" +:+ dq +:+ ":" +:+ dq +:+ dq +:+ "}".

Definition title_required_body : string :=
  "{" +:+ dq +:+ "error" +:+ dq +:+ ":" +:+ dq +:+ "title required" +:+ dq +:+ "}".

Definition sample_parse (txt : string) : option JsValue :=
  if String.eqb txt empty_error_body then Some (VObj [("error", VStr "")])
  else if String.eqb txt title_required_body
       then Some (VObj [("error", VStr "title required")])
       else None.

Definition sample_locale (t : Z) : string := pretty t.

Definition always_yes (question : string) : bool := true.

Definition older_row : Row :=
  {| r_id := 1; r_title := "first"; r_category := "A"; r_note := None;
     r_created_at := 10;
     r_files := Some {[ "invoice" := Some [ {| f_id := 7; f_original_name := "a.pdf" |};
                                            {| f_id := 8; f_original_name := "b.pdf" |} ] ]} |}.

Definition newer_row : Row :=
  {| r_id := 2; r_title := "second"; r_category := "B"; r_note := Some "checked";
     r_created_at := 20;
     r_files := Some {[ "work" := Some [ {| f_id := 9; f_original_name := "c.pdf" |} ] ]} |}.

Definition sample_groups : Snapshot :=
  GroupMode (Some [("A", [older_row]); ("B", [newer_row])]).

Definition sample_page : Page :=
  {| title_value := "Invoice 12"; category_value := "contract";
     note_value := "urgent"; groupMode_value := "time";
     totalBadge := "0"; content := [] |}.

Definition blank_page : Page :=
  {| title_value := "   "; category_value := "x"; note_value := "y";
     groupMode_value := "time"; totalBadge := "0"; content := [] |}.

Definition sample_world : World :=
  {| page := sample_page; control := control_at_rest false |}.

Definition blank_world : World :=
  {| page := blank_page; control := control_at_rest false |}.

Definition sample_blob : Blob := {| blob_name := "scan.pdf"; blob_data := "%PDF" |}.

(** ** Reading a tree *)

Definition node_tag (n : Node) : string :=
  match n with Element t _ _ _ _ => t | TextNode _ => "" end.



Definition node_children (n : Node) : list Node :=
  match n with Element _ _ _ _ cs => cs | TextNode _ => [] end.

(** What an argument of [el] adds to the element: the node of a child,
    the listener of an [on...] entry. *)
Definition child_node (c : Child) : option Node :=
  match c with
  | CNull => None
  | CStr s => Some (TextNode s)
  | CNode n => Some n
  end.

Definition attr_listener (kv : string * AttrValue) : option (string * Handler) :=
  match snd kv with
  | AFun h =>
      if String.eqb (fst kv) "class" then None
      else if Js.startsWith (fst kv) "on" then Some (Js.slice 2 (fst kv), h)
      else None
  | AStr _ => None
  end.

(** The [tr] elements of a table: the children of its [thead] and [tbody]. *)
Definition table_trs (table : Node) : list Node :=
  node_children table ≫= node_children.

(** The listeners of a tree in document order. *)
Fixpoint all_listeners (n : Node) : list (string * Handler) :=
  match n with
  | TextNode _ => []
  | Element _ _ _ ls cs => (ls ++ (cs ≫= all_listeners))%list
  end.

(** The links of a tree in document order: the [href] and the text nodes
    of every [a] element. *)
Definition attr_value (k : string) (a : list (string * string)) : string :=
  match List.find (λ kv, String.eqb (fst kv) k) a with
  | Some kv => snd kv
  | None => ""
  end.

Definition own_texts (cs : list Node) : list string :=
  omap (λ c, match c with TextNode s => Some s | _ => None end) cs.

Fixpoint links (n : Node) : list (string * list string) :=
  match n with
  | TextNode _ => []
  | Element t _ a _ cs =>
      ((if String.eqb t "a" then [(attr_value "href" a, own_texts cs)] else [])
       ++ (cs ≫= links))%list
  end.

(** The controls that one kind cell holds for a row, as listeners: the
    two of the upload control, then one per file of the bucket. *)
Definition cell_listeners (r : Row) (kind : string) : list (string * Handler) :=
  ([("click", OpenPicker); ("change", UploadOnChange (r_id r) kind)]
   ++ ((λ f, ("click", DeleteFileOnClick (f_id f))) <$> cell_files r kind))%list.

Definition always_no (question : string) : bool := false.

(** A key that [el] hands to [setAttribute]. *)
Definition plain_key (k : string) : Prop :=
  k ≠ "class" ∧ Js.startsWith k "on" = false.

(** A time-mode payload with one row and one file, its text, and a
    [JSON.parse] that knows this text and [null]. *)
Definition jstr (s : string) : string := dq +:+ s +:+ dq.

Definition rows_body : string :=
  "{" +:+ jstr "mode" +:+ ":" +:+ jstr "time" +:+ "," +:+ jstr "rows" +:+ ":[{"
  +:+ jstr "id" +:+ ":1," +:+ jstr "title" +:+ ":" +:+ jstr "first" +:+ ","
  +:+ jstr "category" +:+ ":" +:+ jstr "A" +:+ "," +:+ jstr "note" +:+ ":null,"
  +:+ jstr "created_at" +:+ ":10," +:+ jstr "files" +:+ ":{" +:+ jstr "invoice"
  +:+ ":[{" +:+ jstr "id" +:+ ":7," +:+ jstr "original_name" +:+ ":"
  +:+ jstr "a.pdf" +:+ "}]}}]}".

Definition rows_payload : JsValue :=
  VObj [("mode", VStr "time");
        ("rows", VArr [VObj [("id", VNum 1); ("title", VStr "first");
                             ("category", VStr "A"); ("note", VNull);
                             ("created_at", VNum 10);
                             ("files", VObj [("invoice",
                                VArr [VObj [("id", VNum 7);
                                            ("original_name", VStr "a.pdf")]])])]])].

Definition payload_parse (txt : string) : option JsValue :=
  if String.eqb txt rows_body then Some rows_payload
  else if String.eqb txt "null" then Some VNull
  else None.

Definition fetched_row : Row :=
  {| r_id := 1; r_title := "first"; r_category := "A"; r_note := None;
     r_created_at := 10;
     r_files := Some {[ "invoice" := Some [ {| f_id := 7; f_original_name := "a.pdf" |} ] ]} |}.

(** * Properties *)

(** ** The shape of what the renderer builds *)

Lemma foldl_appendChild {A : Type} (g : A → Node) t cl a ls cs (l : list A) :
  foldl (λ n x, appendChild n (g x)) (Element t cl a ls cs) l
  = Element t cl a ls (cs ++ (g <$> l)).
Proof.
  revert cs. induction l as [|x l IH]; intros cs; simpl.
  - by rewrite app_nil_r.
  - rewrite IH. by rewrite <- app_assoc.
Qed.

Lemma renderFilesCell_shape row kind :
  renderFilesCell row kind
  = Element "div" "files" [] []
      (makeInstantUploadButton (r_id row) kind :: (file_entry <$> cell_files row kind)).
Proof.
  unfold renderFilesCell.
  assert (Hl : match r_files row with
               | Some files => match files !! kind with
                               | Some (Some l) => l
                               | _ => []
                               end
               | None => []
               end = cell_files row kind) by done.
  rewrite Hl. exact (foldl_appendChild file_entry _ _ _ _ _ _).
Qed.

Lemma renderTable_shape rows :
  renderTable rows
  = Element "table" "grid" [] []
      [table_head; Element "tbody" "" [] [] (table_row <$> rows)].
Proof.
  unfold renderTable.
  change (el "tbody" [] []) with (Element "tbody" "" [] [] []).
  rewrite (foldl_appendChild table_row). reflexivity.
Qed.

(** ** Counting attachments *)

Lemma sum_list_with_ext_in {A : Type} (f g : A → nat) (l : list A) :
  (∀ x, x ∈ l → f x = g x) → sum_list_with f l = sum_list_with g l.
Proof.
  induction l as [|x l IH]; intros Hfg; simpl; [done|].
  rewrite (Hfg x) by left. rewrite IH; [done|].
  intros y Hy. apply Hfg. by right.
Qed.

Lemma sum_list_with_fmap {A B : Type} (h : A → B) (f : B → nat) (l : list A) :
  sum_list_with f (h <$> l) = sum_list_with (λ x, f (h x)) l.
Proof. induction l as [|x l IH]; csimpl; [done|]. by rewrite IH. Qed.

Lemma sum_list_with_concat {A : Type} (f : A → nat) (ls : list (list A)) :
  sum_list_with f (concat ls) = sum_list_with (sum_list_with f) ls.
Proof.
  induction ls as [|l ls IH]; simpl; [done|].
  by rewrite sum_list_with_app, IH.
Qed.

Lemma foldl_add_sum {A : Type} (f : A → nat) (l : list A) (cnt : nat) :
  foldl (λ cnt x, cnt + f x) cnt l = cnt + sum_list_with f l.
Proof.
  revert cnt. induction l as [|x l IH]; intros cnt; simpl; [lia|].
  rewrite IH. lia.
Qed.

Lemma bucket_or_empty_elem (files : gmap string (option (list File))) k b :
  (k, b) ∈ map_to_list files → bucket_or_empty files k = default [] b.
Proof.
  intros H%elem_of_map_to_list. unfold bucket_or_empty. rewrite H.
  by destruct b.
Qed.

Lemma bucket_keys_total (files : gmap string (option (list File))) :
  sum_list_with (λ k, length (bucket_or_empty files k)) (bucket_keys files)
  = bucket_total files.
Proof.
  unfold bucket_keys, bucket_total.
  rewrite (sum_list_with_fmap fst (λ k, length (bucket_or_empty files k))).
  apply sum_list_with_ext_in. intros [k b] Hkb; simpl.
  by rewrite (bucket_or_empty_elem _ _ _ Hkb).
Qed.

(** The loop of [countAllFiles] computes the sum of the bucket lengths. *)
Lemma countAllFiles_total (rows : list Row) :
  countAllFiles rows = attachment_total rows.
Proof.
  unfold countAllFiles, attachment_total.
  enough (H : ∀ cnt,
    foldl (λ cnt r,
             let files := default ∅ (r_files r) in
             foldl (λ cnt k, cnt + length (bucket_or_empty files k))
                   cnt (bucket_keys files)) cnt rows
    = cnt + sum_list_with (λ r, bucket_total (default ∅ (r_files r))) rows)
    by apply (H 0).
  induction rows as [|r rows IH]; intros cnt; simpl; [lia|].
  rewrite IH, foldl_add_sum, bucket_keys_total. lia.
Qed.

Lemma sum_at_key (ks : list string) (i : string) (a : nat) (h : string → nat) :
  NoDup ks → i ∈ ks → h i = 0 →
  sum_list_with (λ k, if decide (k = i) then a else h k) ks
  = a + sum_list_with h ks.
Proof.
  intros Hnd Hi Hh. induction Hnd as [|k ks Hk Hnd IH]; [by inversion Hi|].
  simpl. destruct (decide (k = i)) as [->|Hne].
  - rewrite Hh.
    rewrite (sum_list_with_ext_in _ h); [lia|].
    intros y Hy. destruct (decide (y = i)) as [->|]; [done|done].
  - inversion Hi; subst; [done|]. rewrite IH by done. lia.
Qed.

(** Over a list of distinct kinds that covers the keys of a bucket map,
    the buckets read kind by kind hold as many files as the whole map. *)
Lemma kinds_cover_total (ks : list string) (files : gmap string (option (list File))) :
  NoDup ks → (∀ k, k ∈ bucket_keys files → k ∈ ks) →
  sum_list_with (λ k, length (bucket_or_empty files k)) ks = bucket_total files.
Proof.
  intros Hnd. induction files as [|i x m Hi IH] using map_ind; intros Hks.
  - unfold bucket_total. rewrite map_to_list_empty. simpl.
    rewrite (sum_list_with_ext_in _ (λ _, 0)).
    + clear. induction ks; simpl; [done|]. by rewrite IHks.
    + intros k _. unfold bucket_or_empty. by rewrite lookup_empty.
  - assert (Hin : i ∈ ks).
    { apply Hks. unfold bucket_keys. apply list_elem_of_fmap.
      exists (i, x). split; [done|]. apply elem_of_map_to_list.
      by rewrite lookup_insert_eq. }
    assert (Hm : ∀ k, k ∈ bucket_keys m → k ∈ ks).
    { intros k Hk. apply Hks. unfold bucket_keys in *.
      apply list_elem_of_fmap in Hk as [[k' b] [-> Hk]].
      apply elem_of_map_to_list in Hk. simpl.
      apply list_elem_of_fmap. exists (k', b). split; [done|].
      apply elem_of_map_to_list.
      rewrite lookup_insert_ne; [done|]. intros ->. simpl in Hk. congruence. }
    unfold bucket_total at 1.
    rewrite (sum_list_with_Permutation_proper _ _ _ (map_to_list_insert m i x Hi)).
    simpl. fold (bucket_total m). rewrite <- (IH Hm).
    rewrite <- (sum_at_key ks i (length (default [] x))
                  (λ k, length (bucket_or_empty m k)) Hnd Hin).
    + apply sum_list_with_ext_in. intros k _. unfold bucket_or_empty.
      destruct (decide (k = i)) as [->|Hne].
      * rewrite lookup_insert_eq. by destruct x.
      * by rewrite lookup_insert_ne.
    + unfold bucket_or_empty. by rewrite Hi.
Qed.

(** ** What a redraw leaves on the page *)

Lemma foldl_concat {A : Type} (ls : list (list A)) (acc : list A) :
  foldl (λ all arr, (all ++ arr)%list) acc ls = (acc ++ concat ls)%list.
Proof.
  revert acc. induction ls as [|l ls IH]; intros acc; simpl.
  - by rewrite app_nil_r.
  - by rewrite IH, app_assoc.
Qed.

Lemma foldl_append_content (A B : string → Node) (keys : list string) (p : Page) :
  foldl (λ p k, append_content (B k) (append_content (A k) p)) p keys
  = set_content (content p ++ (keys ≫= λ k, [A k; B k]))%list p.
Proof.
  revert p. induction keys as [|k keys IH]; intros p; csimpl.
  - rewrite app_nil_r. by destruct p.
  - rewrite IH. destruct p; unfold set_content, append_content; simpl.
    by rewrite <- !app_assoc.
Qed.

Lemma redraw_eq (data : Snapshot) (p : Page) :
  redraw data p
  = {| title_value := title_value p; category_value := category_value p;
       note_value := note_value p; groupMode_value := groupMode_value p;
       totalBadge := pretty (countAllFiles (snapshot_rows data));
       content := view data |}.
Proof.
  unfold redraw. destruct data as [rows|g]; simpl; [done|].
  rewrite foldl_concat; simpl.
  destruct (length (group_keys (default [] g)) =? 0)%nat; [done|].
  rewrite (foldl_append_content group_head
             (λ k, renderTable (group_rows (default [] g) k))).
  done.
Qed.

(** ** The file entries of the rendered surface *)

Lemma count_file_entries (l : list File) :
  sum_list_with (count_class "fileRow") (file_entry <$> l) = length l.
Proof. induction l as [|f l IH]; csimpl; [done|]. by rewrite IH. Qed.

Lemma count_cell (r : Row) (kind : string) :
  count_class "fileRow" (renderFilesCell r kind) = length (cell_files r kind).
Proof.
  rewrite renderFilesCell_shape.
  change (count_class "fileRow" (Element "div" "files" [] [] ?cs))
    with (sum_list_with (count_class "fileRow") cs).
  change (sum_list_with ?f (?x :: ?l)) with (f x + sum_list_with f l).
  by rewrite count_file_entries.
Qed.

Lemma count_table_row (r : Row) :
  count_class "fileRow" (table_row r)
  = sum_list_with (λ k, length (cell_files r k)) kind_keys.
Proof.
  transitivity (count_class "fileRow" (renderFilesCell r "invoice")
                + (count_class "fileRow" (renderFilesCell r "work")
                   + (count_class "fileRow" (renderFilesCell r "inspect")
                      + (count_class "fileRow" (renderFilesCell r "other") + 0)))).
  - unfold table_row, note_cell.
    generalize (renderFilesCell r "invoice") (renderFilesCell r "work")
               (renderFilesCell r "inspect") (renderFilesCell r "other").
    intros c1 c2 c3 c4.
    destruct (r_note r) as [n|]; [destruct (String.eqb n "")|]; simpl; lia.
  - by rewrite !count_cell.
Qed.

Lemma count_table (rows : list Row) :
  count_class "fileRow" (renderTable rows)
  = sum_list_with (λ r, sum_list_with (λ k, length (cell_files r k)) kind_keys) rows.
Proof.
  rewrite renderTable_shape.
  change (count_class "fileRow" (Element "table" "grid" [] [] [table_head; ?b]))
    with (count_class "fileRow" b + 0).
  change (count_class "fileRow" (Element "tbody" "" [] [] ?cs))
    with (sum_list_with (count_class "fileRow") cs).
  rewrite (sum_list_with_fmap table_row), Nat.add_0_r.
  apply sum_list_with_ext_in. intros r _. apply count_table_row.
Qed.

Lemma row_wf_cells (r : Row) :
  row_wf r →
  sum_list_with (λ k, length (cell_files r k)) kind_keys
  = bucket_total (default ∅ (r_files r)).
Proof.
  unfold row_wf, cell_files. destruct (r_files r) as [files|]; intros Hwf.
  - apply (kinds_cover_total kind_keys files);
      [|by apply (proj1 (Forall_forall _ _))].
    apply (bool_decide_unpack _). by vm_compute.
  - unfold bucket_total. cbn [default]. by rewrite map_to_list_empty.
Qed.

Lemma count_table_wf (rows : list Row) :
  Forall row_wf rows →
  count_class "fileRow" (renderTable rows) = attachment_total rows.
Proof.
  intros Hwf. rewrite count_table. unfold attachment_total.
  apply sum_list_with_ext_in. intros r Hr. apply row_wf_cells.
  by apply (proj1 (Forall_forall _ _) Hwf).
Qed.

Lemma sum_list_with_bind {A B : Type} (f : B → nat) (g : A → list B) (l : list A) :
  sum_list_with f (l ≫= g) = sum_list_with (λ x, sum_list_with f (g x)) l.
Proof.
  induction l as [|x l IH]; csimpl; [done|].
  by rewrite sum_list_with_app, IH.
Qed.

Lemma group_rows_elem (groups : list (string * list Row)) k rows :
  NoDup (group_keys groups) → (k, rows) ∈ groups → group_rows groups k = rows.
Proof.
  unfold group_keys, group_rows.
  induction groups as [|[k' rows'] groups IH]; intros Hnd Hin; [by inversion Hin|].
  csimpl in *. apply NoDup_cons in Hnd as [Hk' Hnd].
  destruct (String.eqb_spec k' k) as [->|Hne].
  - apply elem_of_cons in Hin as [Heq|Hin]; [simpl; congruence|].
    exfalso. apply Hk'. apply list_elem_of_fmap. by exists (k, rows).
  - apply elem_of_cons in Hin as [Heq|Hin]; [congruence|].
    by apply IH.
Qed.

Lemma attachment_total_concat (ls : list (list Row)) :
  attachment_total (concat ls) = sum_list_with attachment_total ls.
Proof. unfold attachment_total at 1. by rewrite sum_list_with_concat. Qed.

Lemma Forall_concat_elem {A : Type} (P : A → Prop) (ls : list (list A)) (l : list A) :
  Forall P (concat ls) → l ∈ ls → Forall P l.
Proof.
  induction ls as [|l' ls IH]; intros H Hin; [by inversion Hin|].
  simpl in H. apply Forall_app in H as [H1 H2].
  apply elem_of_cons in Hin as [->|Hin]; [done|]. by apply IH.
Qed.

Lemma rendered_files_view (data : Snapshot) (p : Page) :
  snapshot_wf data →
  rendered_files (redraw data p) = attachment_total (snapshot_rows data).
Proof.
  intros [Hrows Hkeys]. rewrite redraw_eq. unfold rendered_files. cbn [content].
  destruct data as [rows|g]; cbn [view snapshot_rows] in *.
  - change (sum_list_with ?f [?a]) with (f a + 0).
    rewrite count_table_wf by done. lia.
  - generalize dependent (default [] g). intros groups Hrows Hkeys.
    rewrite attachment_total_concat.
    destruct (decide (groups = [])) as [->|Hne]; [done|].
    replace (length (group_keys groups) =? 0)%nat with false.
    2:{ symmetry. apply Nat.eqb_neq. destruct groups; [done|]. simpl. lia. }
    rewrite sum_list_with_bind.
    unfold group_keys, group_values.
    rewrite (sum_list_with_fmap fst), (sum_list_with_fmap snd).
    apply sum_list_with_ext_in. intros [k rows] Hin. cbn beta iota delta [fst snd].
    change (sum_list_with ?f [?a; ?b]) with (f a + (f b + 0)).
    rewrite (group_rows_elem groups k rows Hkeys Hin).
    rewrite count_table_wf.
    + simpl. lia.
    + apply (Forall_concat_elem _ _ _ Hrows).
      unfold group_values. apply list_elem_of_fmap. by exists (k, rows).
Qed.

(** C1. For every well-formed snapshot, in time mode and in category mode,
    the count that [refresh] writes into the summary badge is the sum over
    all rows and all kinds of the bucket lengths, and as many file entries
    are rendered in the kind cells of the view. *)
Theorem badge_counts_rendered_files (data : Snapshot) (p : Page) :
  snapshot_wf data →
  totalBadge (redraw data p) = pretty (attachment_total (snapshot_rows data)) ∧
  rendered_files (redraw data p) = attachment_total (snapshot_rows data).
Proof.
  intros Hwf. split.
  - rewrite redraw_eq. cbn [totalBadge]. by rewrite countAllFiles_total.
  - by apply rendered_files_view.
Qed.

(** ** The order of the rendered rows *)

Lemma delete_row_ids_cell (r : Row) (kind : string) :
  delete_row_ids (renderFilesCell r kind) = [].
Proof.
  rewrite renderFilesCell_shape.
  change (delete_row_ids (Element "div" "files" [] [] (?u :: ?cs)))
    with (delete_row_ids u ++ (cs ≫= delete_row_ids))%list.
  change (delete_row_ids (makeInstantUploadButton _ _)) with (@nil Z).
  cbn [app]. induction (cell_files r kind) as [|f l IH]; csimpl; [done|].
  by rewrite IH.
Qed.

Lemma delete_row_ids_row (r : Row) : delete_row_ids (table_row r) = [r_id r].
Proof.
  pose proof (delete_row_ids_cell r "invoice") as H1.
  pose proof (delete_row_ids_cell r "work") as H2.
  pose proof (delete_row_ids_cell r "inspect") as H3.
  pose proof (delete_row_ids_cell r "other") as H4.
  unfold table_row, note_cell.
  revert H1 H2 H3 H4.
  generalize (renderFilesCell r "invoice") (renderFilesCell r "work")
             (renderFilesCell r "inspect") (renderFilesCell r "other").
  intros c1 c2 c3 c4 H1 H2 H3 H4.
  destruct (r_note r) as [n|]; [destruct (String.eqb n "")|];
    csimpl; rewrite H1, H2, H3, H4; done.
Qed.

Lemma delete_row_ids_table (rows : list Row) :
  delete_row_ids (renderTable rows) = r_id <$> rows.
Proof.
  rewrite renderTable_shape.
  change (delete_row_ids (Element "table" "grid" [] [] [table_head; ?b]))
    with (delete_row_ids b ++ [])%list.
  change (delete_row_ids (Element "tbody" "" [] [] ?cs))
    with (cs ≫= delete_row_ids).
  rewrite app_nil_r.
  induction rows as [|r rows IH]; [done|].
  by rewrite !fmap_cons, bind_cons, delete_row_ids_row, IH.
Qed.

(** C3, as the client has it. In time mode the view is one table whose
    body holds the fetched rows one by one in the order in which the store
    sent them: nothing is regrouped and nothing is reordered, so the rows
    are most recent first exactly when the fetched list is. *)
Theorem time_mode_keeps_fetched_order (rows : list Row) (p : Page) :
  content (redraw (TimeMode rows) p)
  = [Element "table" "grid" [] []
       [table_head; Element "tbody" "" [] [] (table_row <$> rows)]] ∧
  rendered_rows (redraw (TimeMode rows) p) = r_id <$> rows.
Proof.
  rewrite redraw_eq. unfold rendered_rows. cbn [content view]. split.
  - by rewrite renderTable_shape.
  - rewrite bind_cons, delete_row_ids_table. by rewrite app_nil_r.
Qed.

(** A list that is already most recent first is its own time order. *)
Lemma time_order_sorted (rows : list Row) :
  Sorted (λ a b, (r_created_at b <= r_created_at a)%Z) rows →
  time_order rows = rows.
Proof.
  unfold time_order. induction 1 as [|r rows Hs IH Hhd]; simpl; [done|].
  rewrite IH. destruct Hhd as [|x l Hx]; simpl; [done|].
  by rewrite (proj2 (Z.leb_le _ _) Hx).
Qed.

(** ** The time order of the specification is a stable sort *)

Lemma insert_by_time_perm (r : Row) (l : list Row) : insert_by_time r l ≡ₚ r :: l.
Proof.
  induction l as [|x l IH]; simpl; [done|].
  destruct (r_created_at x <=? r_created_at r)%Z; [done|].
  rewrite IH. apply Permutation_swap.
Qed.

Lemma time_order_perm (rows : list Row) : time_order rows ≡ₚ rows.
Proof.
  unfold time_order. induction rows as [|r rows IH]; simpl; [done|].
  by rewrite insert_by_time_perm, IH.
Qed.

Lemma insert_by_time_sorted (r : Row) (l : list Row) :
  Sorted (λ a b, (r_created_at b <= r_created_at a)%Z) l →
  Sorted (λ a b, (r_created_at b <= r_created_at a)%Z) (insert_by_time r l).
Proof.
  induction 1 as [|x l Hs IH Hhd]; simpl; [by repeat constructor|].
  destruct (r_created_at x <=? r_created_at r)%Z eqn:E.
  - apply Z.leb_le in E. by repeat constructor.
  - apply Z.leb_gt in E. constructor; [done|].
    destruct Hhd as [|y l Hy]; simpl.
    + constructor. lia.
    + destruct (r_created_at y <=? r_created_at r)%Z; constructor; [lia|done].
Qed.

Lemma time_order_descending (rows : list Row) :
  Sorted (λ a b, (r_created_at b <= r_created_at a)%Z) (time_order rows).
Proof.
  unfold time_order. induction rows as [|r rows IH]; simpl; [constructor|].
  by apply insert_by_time_sorted.
Qed.

Lemma insert_by_time_stable (t : Z) (r : Row) (l : list Row) :
  filter (λ x, r_created_at x = t) (insert_by_time r l)
  = filter (λ x, r_created_at x = t) (r :: l).
Proof.
  induction l as [|x l IH]; simpl; [done|].
  destruct (r_created_at x <=? r_created_at r)%Z eqn:E; [done|].
  apply Z.leb_gt in E. rewrite filter_cons, IH, !filter_cons.
  destruct (decide (r_created_at x = t)), (decide (r_created_at r = t)); try done.
  lia.
Qed.

(** Rows of one timestamp come out of [time_order] in the order in which
    they went in. *)
Lemma time_order_stable (t : Z) (rows : list Row) :
  filter (λ x, r_created_at x = t) (time_order rows)
  = filter (λ x, r_created_at x = t) rows.
Proof.
  unfold time_order. induction rows as [|r rows IH]; simpl; [done|].
  by rewrite insert_by_time_stable, !filter_cons, IH.
Qed.

(** ** The request wrapper *)

Lemma api_answered (url : string) (opts : FetchOpts) (r : FetchResult) (w : World) :
  answered (api url opts) r w
  = {| x_world := w; x_log := []; x_spawned := [];
       x_status := match r with
                   | NetworkError e => Failed e
                   | Response status txt =>
                       if ok status then Done (body_data txt)
                       else Failed (http_error (body_data txt) status)
                   end |}.
Proof.
  unfold answered, api, body_data. cbn [exec x_status x_world t_cont].
  destruct r as [e|status txt]; [done|]. by destruct (ok status).
Qed.

(** C10. Once the response is there, [api] throws exactly when the
    status is not a success status; on a success status it returns the
    parsed body, or the raw text when the body does not parse, and no
    parse error escapes. *)
Theorem api_throws_iff_not_ok (url : string) (opts : FetchOpts)
    (status : Z) (txt : string) (w : World) :
  let st := x_status (answered (api url opts) (Response status txt) w) in
  ((∃ msg, st = Failed msg) ↔ ok status = false) ∧
  st = (if ok status
        then Done match JSON_parse txt with
                  | Some v => v
                  | None => VStr txt
                  end
        else Failed (http_error (body_data txt) status)).
Proof.
  rewrite api_answered. cbn [x_status]. fold (body_data txt). split; [|done].
  destruct (ok status); split; try done.
  - by intros [msg Hmsg].
  - by eexists.
Qed.

(** C9, as the code has it. On a response without a success status the
    message of the error is the [error] field of the body read as a value
    when that field is truthy: the string itself when it is a string that
    is not empty, its rendering as a string otherwise. When the field is
    missing, empty or otherwise falsy, or the body is not an object or
    does not parse, the message is ["HTTP {status}"]. *)
Theorem api_error_message (url : string) (opts : FetchOpts)
    (status : Z) (txt : string) (w : World) :
  ok status = false →
  let e := opt_prop (body_data txt) "error" in
  x_status (answered (api url opts) (Response status txt) w)
  = Failed (match e with
            | VStr s => if String.eqb s "" then "HTTP " +:+ pretty status else s
            | _ => if truthy e then js_toString e else "HTTP " +:+ pretty status
            end) ∧
  (JSON_parse txt = None →
   x_status (answered (api url opts) (Response status txt) w)
   = Failed ("HTTP " +:+ pretty status)).
Proof.
  intros Hok e. rewrite api_answered. cbn [x_status]. rewrite Hok.
  unfold http_error. fold e. split.
  - destruct e as [| |b|n|s|items|props]; try done.
    cbn [truthy js_toString]. by destruct (String.eqb s "").
  - intros Hp. subst e. unfold body_data. by rewrite Hp.
Qed.

(** ** Running the mutations *)

Lemma deliver_none (i : nat) (r : FetchResult) (m : Loop) :
  pending m = [] → deliver i r m = m.
Proof. intros H. unfold deliver. by rewrite H. Qed.

Lemma responses_ignored (rs : list FetchResult) (m : Loop) :
  pending m = [] → foldl (λ m r, deliver 0 r m) m rs = m.
Proof.
  intros H. induction rs as [|r rs IH]; simpl; [done|].
  by rewrite deliver_none.
Qed.

(** Symbolic execution: unfold the loop and the program, and split on
    whatever the next step depends on (the responses, the status, the
    parsed body, the user's answer). *)
Ltac step :=
  unfold run, deliver;
  cbn -[Js.trim Js.encodeURIComponent ok as_snapshot draw clear_content
        http_error pretty].

Ltac cases :=
  repeat (step;
          first
            [ rewrite responses_ignored by done
            | match goal with
              | H : ?x = _ |- context [match ?x with _ => _ end] => rewrite H
              end
            | match goal with
              | |- context [match ?x with _ => _ end] =>
                  lazymatch x with
                  | context [match _ with _ => _ end] => fail
                  | _ => destruct x eqn:?
                  end
              end
            | match goal with
              | |- context [foldl _ _ ?rs] => is_var rs; destruct rs
              end ]);
  step.

(** C4. When the title is empty after trimming, [createRow] notifies the
    user and returns: the world is as it was, no request is issued and
    none is outstanding, whatever the loop was doing. *)
Theorem createRow_blank_title (m : Loop) (rs : list FetchResult) (w : World) :
  Js.trim (title_value (page (world m))) = "" →
  Js.trim (title_value (page w)) = "" →
  run createRow m
  = {| world := world m; pending := pending m;
       log := log m ++ [EvAlert "제목(필수)을 입력해주세요."] |} ∧
  act createRow rs (idle w)
  = {| world := w; pending := [];
       log := [EvAlert "제목(필수)을 입력해주세요."] |}.
Proof.
  intros Hm Hw. split.
  - unfold run, createRow. step. rewrite Hm. step. by rewrite app_nil_r.
  - unfold act, run, createRow, idle. step. rewrite Hw. step.
    by rewrite responses_ignored.
Qed.

(** C5, as the code has it. When the request of [createRow] succeeds,
    the title and the note fields are emptied, the category field keeps
    its text, and the request of [refresh] is issued next. *)
Theorem createRow_success_clears (w : World) (status : Z) (txt : string) :
  String.eqb (Js.trim (title_value (page w))) "" = false →
  ok status = true →
  let m := act createRow [Response status txt] (idle w) in
  title_value (page (world m)) = "" ∧
  note_value (page (world m)) = "" ∧
  category_value (page (world m)) = category_value (page w) ∧
  filter (λ e, is_request e = true) (log m)
  = [EvRequest "/api/rows"
       {| method := "POST"; headers := [("Content-Type", "application/json")];
          body := JsonBody
                    (VObj [("title", VStr (Js.trim (title_value (page w))));
                           ("category", VStr (Js.trim (category_value (page w))));
                           ("note", VStr (Js.trim (note_value (page w))))]) |};
     EvRequest (refresh_url w) no_opts] ∧
  length (pending m) = 1.
Proof.
  intros Ht Hok. unfold act, run, createRow, idle, refresh_url.
  step. rewrite Ht. step. rewrite Hok. step. done.
Qed.

(** The scan is sound for the property it checks. *)
Lemma no_race_from_sound (n : nat) (s : bool) (l : list Event) :
  no_race_from n s l = true →
  ∀ pre u o post,
    l = (pre ++ EvRequest u o :: post)%list → is_refresh_url u = true →
    s || mutation_settled pre = true ∧ mutations_in_flight_from n pre = 0.
Proof.
  revert n s. induction l as [|e l IH]; intros n s Hl pre u o post Heq Hu.
  - by destruct pre.
  - destruct pre as [|e' pre]; simpl in Heq; injection Heq as -> ->.
    + simpl in Hl. rewrite Hu in Hl.
      apply andb_prop in Hl as [Hl _]. apply andb_prop in Hl as [Hn Hs].
      apply Nat.eqb_eq in Hn. by subst.
    + simpl in Hl. unfold mutations_in_flight_from. simpl.
      destruct e' as [u' o'|u' r'|msg|msg b|msg]; simpl.
      * destruct (is_refresh_url u').
        -- apply andb_prop in Hl as [_ Hl]. by apply (IH _ _ Hl pre u o post).
        -- by apply (IH _ _ Hl pre u o post).
      * destruct (is_refresh_url u'); simpl.
        -- by apply (IH _ _ Hl pre u o post).
        -- destruct (IH _ _ Hl pre u o post eq_refl Hu) as [_ H2].
           split; [by rewrite orb_true_r|done].
      * by apply (IH _ _ Hl pre u o post).
      * by apply (IH _ _ Hl pre u o post).
      * by apply (IH _ _ Hl pre u o post).
Qed.

Lemma no_race_sound (l : list Event) : no_race l = true → refresh_after_mutation l.
Proof.
  intros Hl pre u o post Heq Hu.
  by destruct (no_race_from_sound 0 false l Hl pre u o post Heq Hu).
Qed.

(** C6. In each of the four mutations, whatever the store answers and
    whenever, a request of [refresh] is issued only after the response to
    the mutation request has arrived, with no mutation request
    outstanding. *)
Theorem refresh_follows_mutation (w : World) (rs : list FetchResult)
    (rowId fileId : Z) (kind : string) :
  refresh_after_mutation (log (act createRow rs (idle w))) ∧
  refresh_after_mutation (log (act (uploadFile rowId kind) rs (idle w))) ∧
  refresh_after_mutation (log (act (deleteFile fileId) rs (idle w))) ∧
  refresh_after_mutation (log (act (deleteRow rowId) rs (idle w))).
Proof.
  split; [|split; [|split]]; apply no_race_sound.
  - unfold act, createRow, run, idle. cases; done.
  - unfold act, uploadFile, run, idle. cases; done.
  - unfold act, deleteFile, run, idle. cases; done.
  - unfold act, deleteRow, run, idle. cases; done.
Qed.

(** C2, at the code. When the mutation request fails with [msg], the
    click listener of a file's delete button and the change listener of an
    upload control catch the error and alert it; [createRow] and
    [deleteRow] have no handler, so there the error ends as an unhandled
    rejection and no alert is shown. None of the four issues a second
    request. *)
Theorem mutation_errors_alerted_or_lost (w : World) (r : FetchResult) (msg : string)
    (rowId fileId : Z) (kind : string) (file : Blob) :
  failure r = Some msg →
  String.eqb (Js.trim (title_value (page w))) "" = false →
  (∀ question, answer question = true) →
  let created := log (act createRow [r] (idle w)) in
  let row_deleted := log (act (deleteRow rowId) [r] (idle w)) in
  let uploaded := log (act (uploadFile rowId kind) [r] (idle (with_files [file] w))) in
  let file_deleted := log (act (deleteFile fileId) [r] (idle w)) in
  (filter (λ e, is_alert e = true) created = [] ∧
   last created = Some (EvUnhandled msg)) ∧
  (filter (λ e, is_alert e = true) row_deleted = [] ∧
   last row_deleted = Some (EvUnhandled msg)) ∧
  filter (λ e, is_alert e = true) uploaded = [EvAlert msg] ∧
  filter (λ e, is_alert e = true) file_deleted = [EvAlert msg] ∧
  Forall (λ l, length (filter (λ e, is_request e = true) l) = 1)
    [created; row_deleted; uploaded; file_deleted].
Proof.
  intros Hr Ht Hyes.
  unfold act, idle, createRow, deleteRow, uploadFile, deleteFile, with_files.
  step. rewrite Ht, !Hyes. step.
  destruct r as [e|status txt]; cbn [failure] in Hr.
  - injection Hr as ->. step. repeat constructor.
  - fold (body_data txt). destruct (ok status); [done|].
    injection Hr as ->. step. repeat constructor.
Qed.

(** ** The upload control *)

Lemma upload_requests_app (l1 l2 : list Event) :
  upload_requests (l1 ++ l2) = upload_requests l1 + upload_requests l2.
Proof. apply sum_list_with_app. Qed.

Lemma gesture_quiet_or_busy (rowId : Z) (kind : string) (m : Loop) (g : Gesture) :
  quiet_or_busy m → quiet_or_busy (gesture rowId kind m g).
Proof.
  intros [H0|(H1 & Hd & Hp)].
  - destruct g as [|files]; unfold gesture.
    + destruct (btn_disabled (control (world m))); [by left|].
      left. cbn. by rewrite !app_nil_r.
    + destruct (picker_open (control (world m))); [|by left].
      unfold run, handler, uploadFile. destruct files as [|f files].
      * left. cbn. by rewrite !app_nil_r.
      * right. cbn. rewrite upload_requests_app, H0. done.
  - right. destruct g as [|files]; unfold gesture; rewrite ?Hd, ?Hp; done.
Qed.

Lemma gestures_quiet_or_busy (rowId : Z) (kind : string) (gs : list Gesture) (m : Loop) :
  quiet_or_busy m → quiet_or_busy (foldl (gesture rowId kind) m gs).
Proof.
  revert m. induction gs as [|g gs IH]; intros m Hm; simpl; [done|].
  apply IH. by apply gesture_quiet_or_busy.
Qed.

(** C7. The change listener of an upload control does nothing when no
    file is selected. With a file selected it disables the button, shows
    the busy label and issues one upload request; until a response
    arrives no sequence of clicks and selections on the control gets a
    second upload request issued. Once the listener is through, whether
    the upload succeeded or failed, the button is enabled again under its
    label and the selection is cleared. *)
Theorem upload_control_protocol (rowId : Z) (kind : string) (w : World)
    (m : Loop) (f : Blob) (fs : list Blob) (gs : list Gesture)
    (r1 r2 : FetchResult) :
  (* no file selected *)
  run (uploadFile rowId kind)
      {| world := with_files [] (world m); pending := pending m; log := log m |}
  = {| world := with_files [] (world m); pending := pending m; log := log m |} ∧
  (* a click on the enabled button and a selection: busy, one request *)
  (let busy := foldl (gesture rowId kind)
                 (idle (on_control (set_btn_disabled false) w))
                 [ClickButton; ChooseFiles (f :: fs)] in
   btn_disabled (control (world busy)) = true ∧
   btn_textContent (control (world busy)) = "업로드중…" ∧
   upload_requests (log busy) = 1 ∧
   length (pending busy) = 1 ∧
   (* the user goes on clicking and selecting while it is busy *)
   foldl (gesture rowId kind) busy gs = busy) ∧
  (* from rest, whatever the user does before a response arrives *)
  (upload_requests (log (foldl (gesture rowId kind) (idle w) gs)) ≤ 1)%nat ∧
  (* completion *)
  (let done := act (uploadFile rowId kind) [r1; r2] (idle (with_files (f :: fs) w)) in
   pending done = [] ∧
   control (world done) = control_at_rest (picker_open (control w))).
Proof.
  split; [|split; [|split]].
  - unfold run, uploadFile, with_files. cbn. by rewrite !app_nil_r.
  - unfold run, uploadFile, idle. cbn.
    repeat split.
    induction gs as [|g gs IH]; [done|]. by destruct g.
  - assert (H : quiet_or_busy (foldl (gesture rowId kind) (idle w) gs)).
    { apply gestures_quiet_or_busy. by left. }
    destruct H as [->|[-> _]]; lia.
  - unfold act, uploadFile, with_files, idle, control_at_rest.
    cases; done.
Qed.

(** ** Redrawing twice *)

(** A [refresh] whose request is answered with a success status and a
    body that reads as a snapshot redraws the page from that snapshot. *)
Lemma refresh_redraws (w : World) (status : Z) (txt : string) (snap : Snapshot) :
  ok status = true →
  body_data txt ≠ VNull → body_data txt ≠ VUndefined →
  as_snapshot (body_data txt) = Some snap →
  world (act refresh [Response status txt] (idle w))
  = on_page (redraw snap) w.
Proof.
  intros Hok Hnull Hundef Hsnap. unfold act, refresh, idle. step.
  rewrite Hok. step. fold (body_data txt).
  destruct (body_data txt) eqn:E; try done; step; by rewrite Hsnap.
Qed.

Lemma refresh_twice (w : World) (r : FetchResult) :
  page (world (act refresh [r] (act refresh [r] (idle w))))
  = page (world (act refresh [r] (idle w))).
Proof.
  unfold act, refresh, idle. cases; try done.
  all: match goal with
       | |- draw ?s _ = _ =>
           change (redraw s (redraw s (page w)) = redraw s (page w))
       end.
  all: by rewrite !redraw_eq.
Qed.

(** C8. A redraw with the same data on a page that was just redrawn
    leaves the page as it is, and what the target holds after a redraw
    does not depend on what it held before: the target is emptied and
    rebuilt, nothing accumulates. So a second [refresh] that gets the
    same answer as the first leaves the page as the first left it. *)
Theorem redraw_idempotent (data : Snapshot) (p p' : Page) (w : World) (r : FetchResult) :
  redraw data (redraw data p) = redraw data p ∧
  content (redraw data p) = content (redraw data p') ∧
  content (redraw data p) = view data ∧
  page (world (act refresh [r] (act refresh [r] (idle w))))
  = page (world (act refresh [r] (idle w))).
Proof.
  rewrite !redraw_eq. repeat split. apply refresh_twice.
Qed.

(** ** The element builder *)

Lemma put_attr_keys (k v : string) (a : list (string * string)) (k' : string) :
  k' ∈ (put_attr k v a).*1 → k' = k ∨ k' ∈ a.*1.
Proof.
  induction a as [|[k0 v0] a IH]; csimpl.
  - intros ->%list_elem_of_singleton. by left.
  - destruct (String.eqb_spec k0 k) as [->|Hne]; csimpl.
    + intros [->|H]%elem_of_cons; [by left|]. right. by right.
    + intros [->|H]%elem_of_cons; [right; by left|].
      destruct (IH H) as [H'|H']; [by left|]. right. by right.
Qed.

Lemma el_attr_inv t cl a l cs (kv : string * AttrValue) :
  ∃ cl' a',
    el_attr (Element t cl a l cs) kv
    = Element t cl' a' (l ++ option_list (attr_listener kv)) cs
    ∧ (Forall plain_key a.*1 → Forall plain_key a'.*1).
Proof.
  destruct kv as [k v]. unfold el_attr, attr_listener. cbn [fst snd].
  destruct (String.eqb_spec k "class") as [->|Hk].
  - destruct v; cbn; eexists _, _; (split; [by rewrite ?app_nil_r|done]).
  - destruct (Js.startsWith k "on") eqn:Hon.
    + destruct v; cbn; eexists _, _; (split; [by rewrite ?app_nil_r|done]).
    + destruct v; cbn; eexists _, _; (split; [by rewrite ?app_nil_r|]); [|done].
      intros Ha. apply Forall_forall. intros k' Hk'.
      destruct (put_attr_keys _ _ _ _ Hk') as [->|Hin]; [done|].
      by apply (proj1 (Forall_forall _ _) Ha).
Qed.

Lemma foldl_el_attr t cl a l cs (attrs : list (string * AttrValue)) :
  ∃ cl' a',
    foldl el_attr (Element t cl a l cs) attrs
    = Element t cl' a' (l ++ omap attr_listener attrs) cs
    ∧ (Forall plain_key a.*1 → Forall plain_key a'.*1).
Proof.
  revert cl a l. induction attrs as [|kv attrs IH]; intros cl a l.
  - exists cl, a. by rewrite app_nil_r.
  - cbn [foldl]. destruct (el_attr_inv t cl a l cs kv) as (cl1 & a1 & -> & H1).
    destruct (IH cl1 a1 (l ++ option_list (attr_listener kv))%list)
      as (cl2 & a2 & -> & H2).
    exists cl2, a2. split; [|by auto].
    rewrite <- app_assoc. f_equal. f_equal.
    cbn [omap list_omap]. by destruct (attr_listener kv).
Qed.

Lemma foldl_el_child t cl a l cs (children : list Child) :
  foldl el_child (Element t cl a l cs) children
  = Element t cl a l (cs ++ omap child_node children).
Proof.
  revert cs. induction children as [|c children IH]; intros cs.
  - by rewrite app_nil_r.
  - cbn [foldl]. destruct c as [|s|n]; cbn [el_child appendChild omap list_omap child_node].
    + apply IH.
    + rewrite IH. by rewrite <- app_assoc.
    + rewrite IH. by rewrite <- app_assoc.
Qed.

Lemma el_shape (tag : string) (attrs : list (string * AttrValue)) (children : list Child) :
  ∃ cl a,
    el tag attrs children
    = Element tag cl a (omap attr_listener attrs) (omap child_node children)
    ∧ Forall plain_key a.*1.
Proof.
  unfold el, createElement.
  destruct (foldl_el_attr tag "" [] [] [] attrs) as (cl & a & -> & Ha).
  exists cl, a. rewrite foldl_el_child. split; [done|]. by apply Ha.
Qed.


(** The children of [el] are its child arguments in their order, a string
    as a text node, with the [null] ones left out; the tag is the one
    asked for. *)
Theorem el_children_in_order (tag : string)
    (attrs : list (string * AttrValue)) (children : list Child) :
  node_tag (el tag attrs children) = tag ∧
  node_children (el tag attrs children) = omap child_node children.
Proof.
  destruct (el_shape tag attrs children) as (cl & a & -> & Ha). done.
Qed.

(** ** The controls and links of a rendered row *)

Lemma all_listeners_cell (r : Row) (kind : string) :
  all_listeners (renderFilesCell r kind) = cell_listeners r kind.
Proof.
  rewrite renderFilesCell_shape. unfold cell_listeners.
  change (all_listeners (Element "div" "files" [] [] (?u :: ?cs)))
    with (all_listeners u ++ (cs ≫= all_listeners))%list.
  change (all_listeners (makeInstantUploadButton (r_id r) kind))
    with [("click", OpenPicker); ("change", UploadOnChange (r_id r) kind)].
  f_equal. induction (cell_files r kind) as [|f l IH]; [done|].
  rewrite !fmap_cons, bind_cons, IH. done.
Qed.

(** Every control of a rendered row is wired to that row and to its own
    file: kind by kind in the order of the registry, an upload control
    for the row and the kind, then a delete control per file of the
    bucket in bucket order, and last the delete control of the row. *)
Theorem row_controls_wired (r : Row) :
  all_listeners (table_row r)
  = ((kind_keys ≫= cell_listeners r) ++ [("click", DeleteRowOnClick (r_id r))])%list.
Proof.
  pose proof (all_listeners_cell r "invoice") as H1.
  pose proof (all_listeners_cell r "work") as H2.
  pose proof (all_listeners_cell r "inspect") as H3.
  pose proof (all_listeners_cell r "other") as H4.
  change (kind_keys ≫= cell_listeners r)
    with (cell_listeners r "invoice" ++ cell_listeners r "work" ++
          cell_listeners r "inspect" ++ cell_listeners r "other" ++ [])%list.
  rewrite <- H1, <- H2, <- H3, <- H4. clear.
  unfold table_row, note_cell.
  generalize (renderFilesCell r "invoice") (renderFilesCell r "work")
             (renderFilesCell r "inspect") (renderFilesCell r "other").
  intros c1 c2 c3 c4.
  destruct (r_note r) as [n|]; [destruct (String.eqb n "")|];
    csimpl; by rewrite !app_nil_r, <- !app_assoc.
Qed.

(** A kind cell links every file of its bucket, in bucket order, under
    the file's original name to the download address of the file's id. *)
Theorem cell_links_files (r : Row) (kind : string) :
  links (renderFilesCell r kind)
  = (λ f, ("/api/download/" +:+ pretty (f_id f), [f_original_name f]))
      <$> cell_files r kind.
Proof.
  rewrite renderFilesCell_shape.
  change (links (Element "div" "files" [] [] (?u :: ?cs)))
    with (links u ++ (cs ≫= links))%list.
  change (links (makeInstantUploadButton (r_id r) kind)) with (@nil (string * list string)).
  cbn [app]. induction (cell_files r kind) as [|f l IH]; [done|].
  rewrite !fmap_cons, bind_cons, IH. done.
Qed.

(** Every [tr] of a rendered table, the header row and the row of each
    fetched row, has eight cells; there is one body row per fetched row. *)
Theorem table_rows_have_eight_cells (rows : list Row) :
  length (table_trs (renderTable rows)) = S (length rows) ∧
  Forall (λ tr, node_tag tr = "tr" ∧ length (node_children tr) = 8)
         (table_trs (renderTable rows)).
Proof.
  rewrite renderTable_shape. unfold table_trs. cbn [node_children].
  rewrite !bind_cons, app_nil_r. cbn [node_children table_head].
  split.
  - cbn [app length]. by rewrite length_fmap.
  - apply Forall_app. split; [by repeat constructor|].
    apply Forall_fmap, Forall_forall. intros r _.
    unfold table_row, note_cell.
    destruct (r_note r) as [n|]; [destruct (String.eqb n "")|]; done.
Qed.

(** ** The badge and the view without the registry invariant *)

Lemma sum_skip_key (ks : list string) (i : string) (a : nat) (h : string → nat) :
  i ∉ ks →
  sum_list_with (λ k, if decide (k = i) then a else h k) ks = sum_list_with h ks.
Proof.
  intros Hi. apply sum_list_with_ext_in. intros k Hk.
  destruct (decide (k = i)) as [->|]; done.
Qed.

Lemma kinds_below_total (ks : list string) (files : gmap string (option (list File))) :
  NoDup ks →
  (sum_list_with (λ k, length (bucket_or_empty files k)) ks ≤ bucket_total files)%nat.
Proof.
  intros Hnd. induction files as [|i x m Hi IH] using map_ind.
  - rewrite (sum_list_with_ext_in _ (λ _, 0)).
    + clear. induction ks; simpl; [lia|done].
    + intros k _. unfold bucket_or_empty. by rewrite lookup_empty.
  - unfold bucket_total at 1.
    rewrite (sum_list_with_Permutation_proper _ _ _ (map_to_list_insert m i x Hi)).
    simpl. fold (bucket_total m).
    rewrite (sum_list_with_ext_in _
               (λ k, if decide (k = i) then length (default [] x)
                     else length (bucket_or_empty m k))).
    2:{ intros k _. unfold bucket_or_empty.
        destruct (decide (k = i)) as [->|Hne].
        - rewrite lookup_insert_eq. by destruct x.
        - by rewrite lookup_insert_ne. }
    destruct (decide (i ∈ ks)) as [Hin|Hnin].
    + rewrite sum_at_key; [lia|done|done|].
      unfold bucket_or_empty. by rewrite Hi.
    + rewrite sum_skip_key by done. lia.
Qed.

Lemma sum_list_with_le {A : Type} (f g : A → nat) (l : list A) :
  (∀ x, (f x ≤ g x)%nat) → (sum_list_with f l ≤ sum_list_with g l)%nat.
Proof.
  intros Hfg. induction l as [|x l IH]; simpl; [lia|].
  specialize (Hfg x). lia.
Qed.

Lemma row_cells_below_total (r : Row) :
  (sum_list_with (λ k, length (cell_files r k)) kind_keys
   ≤ bucket_total (default ∅ (r_files r)))%nat.
Proof.
  unfold cell_files. destruct (r_files r) as [files|].
  - apply (kinds_below_total kind_keys files).
    apply (bool_decide_unpack _). by vm_compute.
  - cbn [default]. unfold bucket_total. rewrite map_to_list_empty. simpl. lia.
Qed.

(** Whatever keys the bucket maps of the fetched rows have, a table shows
    no more file entries than [countAllFiles] counts for its rows: the
    badge may count files that no cell shows, never the reverse. *)
Theorem table_shows_no_more_than_counted (rows : list Row) :
  (count_class "fileRow" (renderTable rows) ≤ countAllFiles rows)%nat.
Proof.
  rewrite count_table, countAllFiles_total. unfold attachment_total.
  apply sum_list_with_le. intros r. apply row_cells_below_total.
Qed.

(** [countAllFiles] adds up over a list of rows put together from two, as
    the category branch of [refresh] puts the groups together. *)
Theorem countAllFiles_app (rows1 rows2 : list Row) :
  countAllFiles (rows1 ++ rows2) = countAllFiles rows1 + countAllFiles rows2.
Proof.
  rewrite !countAllFiles_total. unfold attachment_total.
  apply sum_list_with_app.
Qed.

(** ** Category mode *)

Lemma delete_row_ids_head (k : string) : delete_row_ids (group_head k) = [].
Proof. done. Qed.

(** In category mode, when the group object has groups, the view is a
    heading and a table per group in the order of the keys, and its rows
    are the rows of the groups, group after group, each shown once. *)
Theorem category_mode_group_by_group (groups : list (string * list Row)) (p : Page) :
  NoDup (group_keys groups) → groups ≠ [] →
  content (redraw (GroupMode (Some groups)) p)
  = (groups ≫= λ g, [group_head (fst g); renderTable (snd g)]) ∧
  rendered_rows (redraw (GroupMode (Some groups)) p)
  = r_id <$> concat (group_values groups).
Proof.
  intros Hnd Hne. rewrite redraw_eq. unfold rendered_rows. cbn [content view].
  change (default [] (Some groups)) with groups.
  replace (length (group_keys groups) =? 0)%nat with false.
  2:{ symmetry. apply Nat.eqb_neq. destruct groups; [done|]. simpl. lia. }
  assert (Hview : (group_keys groups ≫= λ k, [group_head k; renderTable (group_rows groups k)])
                  = (groups ≫= λ g, [group_head (fst g); renderTable (snd g)])).
  { assert (H : ∀ l, (∀ g, g ∈ l → g ∈ groups) →
                (l.*1 ≫= λ k, [group_head k; renderTable (group_rows groups k)])
                = (l ≫= λ g, [group_head (fst g); renderTable (snd g)])).
    { induction l as [|[k rows] l IH]; intros Hl; [done|].
      rewrite fmap_cons, !bind_cons. cbn [fst snd].
      rewrite (group_rows_elem groups k rows Hnd) by (apply Hl; by left).
      rewrite IH; [done|]. intros g Hg. apply Hl. by right. }
    by apply H. }
  rewrite Hview. split; [done|].
  unfold group_values. clear.
  induction groups as [|[k rows] groups IH]; [done|].
  rewrite bind_cons, fmap_cons. cbn [fst snd concat].
  rewrite fmap_app, <- IH.
  change ([group_head k; renderTable rows] ++ ?l)%list
    with (group_head k :: renderTable rows :: l).
  by rewrite !bind_cons, delete_row_ids_head, delete_row_ids_table.
Qed.

(** With nothing to show the two modes differ: category mode, when the
    group object is missing or empty, shows the notice and no table; time
    mode shows a table that has its header row only. The badge reads 0 in
    each case. *)
Theorem empty_views (p : Page) :
  content (redraw (GroupMode None) p) = [empty_notice] ∧
  content (redraw (GroupMode (Some [])) p) = [empty_notice] ∧
  table_trs <$> content (redraw (TimeMode []) p) = [node_children table_head] ∧
  totalBadge (redraw (GroupMode None) p) = "0" ∧
  totalBadge (redraw (GroupMode (Some [])) p) = "0" ∧
  totalBadge (redraw (TimeMode []) p) = "0".
Proof. rewrite !redraw_eq. by repeat split. Qed.

(** ** Confirmation, failure and success of the mutations *)

(** When the user declines the question of [deleteRow] or of a file's
    delete control, nothing is requested and the world stays as it is. *)
Theorem declined_delete_sends_nothing (m : Loop) (rowId fileId : Z) :
  (∀ question, answer question = false) →
  run (deleteRow rowId) m
  = {| world := world m; pending := pending m;
       log := log m ++ [EvConfirm "이 행을 삭제할까요? (첨부도 함께 삭제됨)" false] |} ∧
  run (deleteFile fileId) m
  = {| world := world m; pending := pending m;
       log := log m ++ [EvConfirm "이 파일을 삭제할까요?" false] |}.
Proof.
  intros Hno. unfold run, deleteRow, deleteFile. step. rewrite !Hno. step.
  by rewrite !app_nil_r.
Qed.

Lemma failure_not_ok (status : Z) (txt msg : string) :
  failure (Response status txt) = Some msg → ok status = false.
Proof. cbn [failure]. by destruct (ok status). Qed.

(** When the request of a mutation fails, the page is left as it was and
    no request of [refresh] is issued: nothing is pending afterwards. *)
Theorem failed_mutation_keeps_page (w : World) (r : FetchResult) (msg : string)
    (rowId fileId : Z) (kind : string) :
  failure r = Some msg →
  Forall (λ m, page (world m) = page w ∧ pending m = [] ∧
               (length (filter (λ e, is_request e = true) (log m)) ≤ 1)%nat)
    [act createRow [r] (idle w);
     act (deleteRow rowId) [r] (idle w);
     act (uploadFile rowId kind) [r] (idle w);
     act (deleteFile fileId) [r] (idle w)].
Proof.
  intros Hr. unfold act, idle, createRow, deleteRow, uploadFile, deleteFile.
  destruct r as [e|status txt].
  - repeat (apply List.Forall_cons; [split; [|split]|]); try apply Forall_nil;
      cases; first [done | cbn; lia].
  - pose proof (failure_not_ok _ _ _ Hr) as Hok.
    repeat (apply List.Forall_cons; [split; [|split]|]); try apply Forall_nil; step;
      repeat (first [ rewrite Hok
                    | match goal with
                      | |- context [match ?x with _ => _ end] =>
                          lazymatch x with
                          | context [match _ with _ => _ end] => fail
                          | _ => destruct x eqn:?
                          end
                      end ]; step); first [done | cbn; lia].
Qed.

(** When the request of a mutation succeeds and the request of [refresh]
    that follows is answered with a snapshot, the page is redrawn from that
    snapshot and nothing is left pending; [createRow] has emptied the
    title and note fields before. *)
Theorem mutation_then_refresh_redraws (w : World) (s1 s2 : Z) (t1 t2 : string)
    (snap : Snapshot) (rowId fileId : Z) (kind : string) (f : Blob) (fs : list Blob) :
  ok s1 = true → ok s2 = true →
  body_data t2 ≠ VNull → body_data t2 ≠ VUndefined →
  as_snapshot (body_data t2) = Some snap →
  String.eqb (Js.trim (title_value (page w))) "" = false →
  (∀ question, answer question = true) →
  let rs := [Response s1 t1; Response s2 t2] in
  let created := act createRow rs (idle w) in
  let row_deleted := act (deleteRow rowId) rs (idle w) in
  let uploaded := act (uploadFile rowId kind) rs (idle (with_files (f :: fs) w)) in
  let file_deleted := act (deleteFile fileId) rs (idle w) in
  page (world created)
  = redraw snap (set_note_value "" (set_title_value "" (page w))) ∧
  page (world row_deleted) = redraw snap (page w) ∧
  page (world uploaded) = redraw snap (page w) ∧
  page (world file_deleted) = redraw snap (page w) ∧
  Forall (λ m, pending m = [] ∧ filter (λ e, is_alert e = true) (log m) = [])
    [created; row_deleted; uploaded; file_deleted].
Proof.
  intros Hs1 Hs2 Hnull Hundef Hsnap Ht Hyes.
  unfold act, idle, createRow, deleteRow, uploadFile, deleteFile, with_files, refresh.
  step. rewrite Ht, !Hyes. step. rewrite Hs1. step. rewrite Hs2. step.
  fold (body_data t2).
  destruct (body_data t2) eqn:E; try done; step; rewrite Hsnap; step;
    repeat split; repeat constructor.
Qed.

(** When the request of [refresh] fails, the page keeps what it showed
    (the target is not even emptied) and the error ends as an unhandled
    rejection: [refresh] itself alerts nothing. *)
Theorem failed_refresh_keeps_page (w : World) (r : FetchResult) (msg : string) :
  failure r = Some msg →
  act refresh [r] (idle w)
  = {| world := w; pending := [];
       log := [EvRequest (refresh_url w) no_opts;
               EvResponse (refresh_url w) r;
               EvUnhandled msg] |}.
Proof.
  intros Hr. unfold act, idle, refresh, refresh_url. step.
  destruct r as [e|status txt].
  - injection Hr as ->. done.
  - pose proof (failure_not_ok _ _ _ Hr) as Hok. cbn [failure] in Hr.
    rewrite Hok in *. injection Hr as <-. step. done.
Qed.

(** A failure of the [refresh] that follows a successful mutation is
    alerted only by the upload control, which awaits [refresh] inside its
    [try]; after [createRow], [deleteRow] and a file's delete control it
    is an unhandled rejection. The upload control is at rest again either
    way. *)
Theorem failed_refresh_after_mutation (w : World) (s1 : Z) (t1 : string)
    (r2 : FetchResult) (msg : string)
    (rowId fileId : Z) (kind : string) (f : Blob) (fs : list Blob) :
  ok s1 = true → failure r2 = Some msg →
  String.eqb (Js.trim (title_value (page w))) "" = false →
  (∀ question, answer question = true) →
  let rs := [Response s1 t1; r2] in
  let uploaded := act (uploadFile rowId kind) rs (idle (with_files (f :: fs) w)) in
  filter (λ e, is_alert e = true) (log uploaded) = [EvAlert msg] ∧
  control (world uploaded) = control_at_rest (picker_open (control w)) ∧
  Forall (λ m, filter (λ e, is_alert e = true) (log m) = [] ∧
               last (log m) = Some (EvUnhandled msg))
    [act createRow rs (idle w);
     act (deleteRow rowId) rs (idle w);
     act (deleteFile fileId) rs (idle w)].
Proof.
  intros Hs1 Hr Ht Hyes.
  unfold act, idle, createRow, deleteRow, uploadFile, deleteFile, with_files, refresh.
  step. rewrite Ht, !Hyes. step. rewrite Hs1. step.
  destruct r2 as [e|status txt].
  - injection Hr as ->. step. repeat split; repeat constructor.
  - pose proof (failure_not_ok _ _ _ Hr) as Hok. cbn [failure] in Hr.
    rewrite Hok in *. injection Hr as <-. step.
    repeat split; repeat constructor.
Qed.

(** ** What [refresh] does with odd bodies, and what it leaves alone *)

(** A success response whose body is not JSON is taken for a category
    payload without groups: the view is the notice and the badge reads 0,
    and no error is raised. *)
Theorem refresh_unparseable_body_shows_notice (w : World) (status : Z) (txt : string) :
  ok status = true → JSON_parse txt = None →
  let m := act refresh [Response status txt] (idle w) in
  content (page (world m)) = [empty_notice] ∧
  totalBadge (page (world m)) = "0" ∧
  log m = [EvRequest (refresh_url w) no_opts;
           EvResponse (refresh_url w) (Response status txt)].
Proof.
  intros Hok Hp. unfold act, idle, refresh, refresh_url. step.
  rewrite Hok, Hp. step. done.
Qed.

(** A success response whose body is the JSON [null] empties the view and
    then fails on reading [data.mode]: the badge keeps its old text and the
    error is an unhandled rejection. *)
Theorem refresh_null_body_empties_view (w : World) (status : Z) (txt : string) :
  ok status = true → JSON_parse txt = Some VNull →
  let m := act refresh [Response status txt] (idle w) in
  content (page (world m)) = [] ∧
  totalBadge (page (world m)) = totalBadge (page w) ∧
  (∃ msg, last (log m) = Some (EvUnhandled msg)) ∧
  pending m = [].
Proof.
  intros Hok Hp. unfold act, idle, refresh. step. rewrite Hok, Hp. step.
  repeat split. by eexists.
Qed.

(** Whatever the store answers, [refresh] writes to the render target
    and the badge only: the four form fields and the upload control that a
    listener holds are as before. *)
Theorem refresh_keeps_inputs (w : World) (r : FetchResult) :
  let w' := world (act refresh [r] (idle w)) in
  title_value (page w') = title_value (page w) ∧
  category_value (page w') = category_value (page w) ∧
  note_value (page w') = note_value (page w) ∧
  groupMode_value (page w') = groupMode_value (page w) ∧
  control w' = control w.
Proof.
  unfold act, refresh, idle. cases; try done.
  all: repeat match goal with
       | |- context [draw ?s (clear_content ?p)] =>
           change (draw s (clear_content p)) with (redraw s p)
       end.
  all: by rewrite !redraw_eq.
Qed.

(** ** More of the upload control *)

(** The upload request carries the row id, the kind and the first file of
    the selection, whatever else is selected. *)
Theorem upload_sends_first_file (rowId : Z) (kind : string) (w : World)
    (f : Blob) (fs : list Blob) :
  log (run (uploadFile rowId kind) (idle (with_files (f :: fs) w)))
  = [EvRequest "/api/upload"
       {| method := "POST"; headers := [];
          body := FormBody [("row_id", FStr (pretty rowId)); ("kind", FStr kind);
                            ("file", FFile f)] |}].
Proof. done. Qed.

(** After a failed upload the control, still in the view, can be used
    again: a click and a selection issue a second upload request and the
    control is busy once more. *)
Theorem upload_control_reusable (rowId : Z) (kind : string) (w : World)
    (f g : Blob) (fs gs : list Blob) (r : FetchResult) (msg : string) :
  failure r = Some msg →
  let failed := act (uploadFile rowId kind) [r] (idle (with_files (f :: fs) w)) in
  let again := foldl (gesture rowId kind) failed [ClickButton; ChooseFiles (g :: gs)] in
  page (world failed) = page w ∧
  upload_requests (log again) = 2 ∧
  btn_disabled (control (world again)) = true ∧
  length (pending again) = 1.
Proof.
  intros Hr. unfold act, uploadFile, with_files, idle.
  destruct r as [e|status txt]; step; [done|].
  rewrite (failure_not_ok _ _ _ Hr). step. done.
Qed.

End Client.

(** * The properties at concrete inputs *)

(** C1 at a category-mode snapshot of two groups and three files. *)
Lemma badge_counts_rendered_files_witness :
  totalBadge (redraw sample_locale sample_groups sample_page)
  = pretty (attachment_total (snapshot_rows sample_groups)) ∧
  rendered_files (redraw sample_locale sample_groups sample_page)
  = attachment_total (snapshot_rows sample_groups).
Proof.
  apply (badge_counts_rendered_files sample_locale sample_groups sample_page).
  split.
  - apply (bool_decide_unpack _). vm_compute. reflexivity.
  - apply (bool_decide_unpack _). vm_compute. reflexivity.
Defined.

(** C3 as stated fails: the store sends the older row first, and the
    client shows it first, where the time order has the newer row first. *)
Lemma time_mode_not_sorted_by_client :
  rendered_rows (redraw sample_locale (TimeMode [older_row; newer_row]) sample_page)
  ≠ r_id <$> time_order [older_row; newer_row].
Proof. vm_compute. discriminate. Qed.

(** C4 at a title of three spaces. *)
Lemma createRow_blank_title_witness :
  run always_yes (createRow sample_locale sample_parse) (idle blank_world)
  = {| world := blank_world; pending := [];
       log := [] ++ [EvAlert "제목(필수)을 입력해주세요."] |} ∧
  act always_yes (createRow sample_locale sample_parse)
      [Response 201 "{}"] (idle blank_world)
  = {| world := blank_world; pending := [];
       log := [EvAlert "제목(필수)을 입력해주세요."] |}.
Proof.
  apply (createRow_blank_title sample_locale sample_parse always_yes
           (idle blank_world) [Response 201 "{}"] blank_world);
    reflexivity.
Defined.

(** C5 as stated fails: after a successful [createRow] the category field
    still holds its text. *)
Lemma createRow_keeps_category :
  category_value
    (page (world (act always_yes (createRow sample_locale sample_parse)
                      [Response 201 "{}"] (idle sample_world))))
  ≠ "".
Proof. vm_compute. discriminate. Qed.

(** C5, as the code has it, at the same input. *)
Lemma createRow_success_clears_witness :
  let m := act always_yes (createRow sample_locale sample_parse)
               [Response 201 "{}"] (idle sample_world) in
  title_value (page (world m)) = "" ∧
  note_value (page (world m)) = "" ∧
  category_value (page (world m)) = "contract" ∧
  filter (λ e, is_request e = true) (log m)
  = [EvRequest "/api/rows"
       {| method := "POST"; headers := [("Content-Type", "application/json")];
          body := JsonBody (VObj [("title", VStr "Invoice 12");
                                  ("category", VStr "contract");
                                  ("note", VStr "urgent")]) |};
     EvRequest "/api/rows?group=time" no_opts] ∧
  length (pending m) = 1.
Proof.
  apply (createRow_success_clears sample_locale sample_parse always_yes
           sample_world 201 "{}"); reflexivity.
Defined.

(** C9 as stated fails: a body of the shape [{ error: string }] whose
    string is empty gives ["HTTP 400"], not the field. *)
Lemma empty_error_field_falls_back :
  x_status (answered always_yes (api sample_parse "/api/rows" no_opts)
              (Response 400 empty_error_body) sample_world)
  ≠ Failed (spec_error_message (body_data sample_parse empty_error_body) 400).
Proof. vm_compute. discriminate. Qed.

(** C9, as the code has it, at a body that carries a message. *)
Lemma api_error_message_witness :
  x_status (answered always_yes (api sample_parse "/api/rows" no_opts)
              (Response 400 title_required_body) sample_world)
  = Failed "title required" ∧
  (sample_parse title_required_body = None →
   x_status (answered always_yes (api sample_parse "/api/rows" no_opts)
               (Response 400 title_required_body) sample_world)
   = Failed ("HTTP " +:+ pretty 400%Z)).
Proof.
  apply (api_error_message sample_parse always_yes "/api/rows" no_opts
           400 title_required_body sample_world).
  reflexivity.
Defined.

(** C2 at a store that answers 400 with a message: [createRow] and
    [deleteRow] show no alert. *)
Lemma mutation_errors_alerted_or_lost_witness :
  let r := Response 400 title_required_body in
  let created := log (act always_yes (createRow sample_locale sample_parse) [r]
                        (idle sample_world)) in
  let row_deleted := log (act always_yes (deleteRow sample_locale sample_parse 1) [r]
                            (idle sample_world)) in
  let uploaded := log (act always_yes (uploadFile sample_locale sample_parse 1 "invoice") [r]
                         (idle (with_files [sample_blob] sample_world))) in
  let file_deleted := log (act always_yes (deleteFile sample_locale sample_parse 7) [r]
                             (idle sample_world)) in
  (filter (λ e, is_alert e = true) created = [] ∧
   last created = Some (EvUnhandled "title required")) ∧
  (filter (λ e, is_alert e = true) row_deleted = [] ∧
   last row_deleted = Some (EvUnhandled "title required")) ∧
  filter (λ e, is_alert e = true) uploaded = [EvAlert "title required"] ∧
  filter (λ e, is_alert e = true) file_deleted = [EvAlert "title required"] ∧
  Forall (λ l, length (filter (λ e, is_request e = true) l) = 1)
    [created; row_deleted; uploaded; file_deleted].
Proof.
  apply (mutation_errors_alerted_or_lost sample_locale sample_parse always_yes
           sample_world (Response 400 title_required_body) "title required"
           1 7 "invoice" sample_blob); reflexivity.
Defined.

(** Outside the well-formed snapshots the two counts part: a bucket filed
    under a key that is no kind of the registry is counted by the badge
    and shown in no cell. *)
Lemma unregistered_kind_counted_not_rendered :
  let stray :=
    {| r_id := 3; r_title := "third"; r_category := "A"; r_note := None;
       r_created_at := 30;
       r_files := Some {[ "misc" := Some [ {| f_id := 11; f_original_name := "d.pdf" |} ] ]} |} in
  totalBadge (redraw sample_locale (TimeMode [stray]) sample_page) = "1" ∧
  rendered_files (redraw sample_locale (TimeMode [stray]) sample_page) = 0.
Proof. vm_compute. split; reflexivity. Qed.

(** * Further properties at concrete inputs *)

Lemma category_mode_group_by_group_witness :
  content (redraw sample_locale sample_groups sample_page)
  = [group_head "A"; renderTable sample_locale [older_row];
     group_head "B"; renderTable sample_locale [newer_row]] ∧
  rendered_rows (redraw sample_locale sample_groups sample_page) = [1%Z; 2%Z].
Proof.
  apply (category_mode_group_by_group sample_locale
           [("A", [older_row]); ("B", [newer_row])] sample_page).
  - apply (bool_decide_unpack _). by vm_compute.
  - discriminate.
Defined.

Lemma declined_delete_sends_nothing_witness :
  run always_no (deleteRow sample_locale sample_parse 1) (idle sample_world)
  = {| world := sample_world; pending := [];
       log := [] ++ [EvConfirm "이 행을 삭제할까요? (첨부도 함께 삭제됨)" false] |} ∧
  run always_no (deleteFile sample_locale sample_parse 7) (idle sample_world)
  = {| world := sample_world; pending := [];
       log := [] ++ [EvConfirm "이 파일을 삭제할까요?" false] |}.
Proof.
  apply (declined_delete_sends_nothing sample_locale sample_parse always_no
           (idle sample_world) 1 7). reflexivity.
Defined.

Lemma failed_mutation_keeps_page_witness :
  Forall (λ m, page (world m) = sample_page ∧ pending m = [] ∧
               (length (filter (λ e, is_request e = true) (log m)) ≤ 1)%nat)
    [act always_yes (createRow sample_locale sample_parse)
         [Response 400 title_required_body] (idle sample_world);
     act always_yes (deleteRow sample_locale sample_parse 1)
         [Response 400 title_required_body] (idle sample_world);
     act always_yes (uploadFile sample_locale sample_parse 1 "invoice")
         [Response 400 title_required_body] (idle sample_world);
     act always_yes (deleteFile sample_locale sample_parse 7)
         [Response 400 title_required_body] (idle sample_world)].
Proof.
  apply (failed_mutation_keeps_page sample_locale sample_parse always_yes
           sample_world (Response 400 title_required_body) "title required"
           1 7 "invoice"). reflexivity.
Defined.

Lemma mutation_then_refresh_redraws_witness :
  let rs := [Response 201 "{}"; Response 200 rows_body] in
  let snap := TimeMode [fetched_row] in
  let created := act always_yes (createRow sample_locale payload_parse) rs
                     (idle sample_world) in
  let row_deleted := act always_yes (deleteRow sample_locale payload_parse 1) rs
                         (idle sample_world) in
  let uploaded := act always_yes (uploadFile sample_locale payload_parse 1 "invoice") rs
                      (idle (with_files [sample_blob] sample_world)) in
  let file_deleted := act always_yes (deleteFile sample_locale payload_parse 7) rs
                          (idle sample_world) in
  page (world created)
  = redraw sample_locale snap (set_note_value "" (set_title_value "" sample_page)) ∧
  page (world row_deleted) = redraw sample_locale snap sample_page ∧
  page (world uploaded) = redraw sample_locale snap sample_page ∧
  page (world file_deleted) = redraw sample_locale snap sample_page ∧
  Forall (λ m, pending m = [] ∧ filter (λ e, is_alert e = true) (log m) = [])
    [created; row_deleted; uploaded; file_deleted].
Proof.
  apply (mutation_then_refresh_redraws sample_locale payload_parse always_yes
           sample_world 201 200 "{}" rows_body (TimeMode [fetched_row])
           1 7 "invoice" sample_blob []);
    first [reflexivity | discriminate | by vm_compute].
Defined.

Lemma failed_refresh_keeps_page_witness :
  act always_yes (refresh sample_locale sample_parse)
      [NetworkError "Failed to fetch"] (idle sample_world)
  = {| world := sample_world; pending := [];
       log := [EvRequest "/api/rows?group=time" no_opts;
               EvResponse "/api/rows?group=time" (NetworkError "Failed to fetch");
               EvUnhandled "Failed to fetch"] |}.
Proof.
  apply (failed_refresh_keeps_page sample_locale sample_parse always_yes
           sample_world (NetworkError "Failed to fetch") "Failed to fetch").
  reflexivity.
Defined.

Lemma failed_refresh_after_mutation_witness :
  let rs := [Response 200 "{}"; Response 500 "oops"] in
  let uploaded := act always_yes (uploadFile sample_locale sample_parse 1 "invoice") rs
                      (idle (with_files [sample_blob] sample_world)) in
  filter (λ e, is_alert e = true) (log uploaded) = [EvAlert "HTTP 500"] ∧
  control (world uploaded) = control_at_rest false ∧
  Forall (λ m, filter (λ e, is_alert e = true) (log m) = [] ∧
               last (log m) = Some (EvUnhandled "HTTP 500"))
    [act always_yes (createRow sample_locale sample_parse) rs (idle sample_world);
     act always_yes (deleteRow sample_locale sample_parse 1) rs (idle sample_world);
     act always_yes (deleteFile sample_locale sample_parse 7) rs (idle sample_world)].
Proof.
  apply (failed_refresh_after_mutation sample_locale sample_parse always_yes
           sample_world 200 "{}" (Response 500 "oops") "HTTP 500"
           1 7 "invoice" sample_blob []); reflexivity.
Defined.

Lemma refresh_unparseable_body_shows_notice_witness :
  let m := act always_yes (refresh sample_locale sample_parse)
               [Response 200 "<html>"] (idle sample_world) in
  content (page (world m)) = [empty_notice] ∧
  totalBadge (page (world m)) = "0" ∧
  log m = [EvRequest "/api/rows?group=time" no_opts;
           EvResponse "/api/rows?group=time" (Response 200 "<html>")].
Proof.
  apply (refresh_unparseable_body_shows_notice sample_locale sample_parse always_yes
           sample_world 200 "<html>"); reflexivity.
Defined.

Lemma refresh_null_body_empties_view_witness :
  let m := act always_yes (refresh sample_locale payload_parse)
               [Response 200 "null"] (idle sample_world) in
  content (page (world m)) = [] ∧
  totalBadge (page (world m)) = "0" ∧
  (∃ msg, last (log m) = Some (EvUnhandled msg)) ∧
  pending m = [].
Proof.
  apply (refresh_null_body_empties_view sample_locale payload_parse always_yes
           sample_world 200 "null"); reflexivity.
Defined.

Lemma upload_control_reusable_witness :
  let failed := act always_yes (uploadFile sample_locale sample_parse 1 "invoice")
                    [Response 400 title_required_body]
                    (idle (with_files [sample_blob] sample_world)) in
  let again := foldl (gesture sample_locale sample_parse always_yes 1 "invoice") failed
                     [ClickButton; ChooseFiles [sample_blob]] in
  page (world failed) = sample_page ∧
  upload_requests (log again) = 2 ∧
  btn_disabled (control (world again)) = true ∧
  length (pending again) = 1.
Proof.
  apply (upload_control_reusable sample_locale sample_parse always_yes
           1 "invoice" sample_world sample_blob sample_blob [] []
           (Response 400 title_required_body) "title required").
  reflexivity.
Defined.
